(** * Training orchestration of [uncertainty_stream/train.py]

    A shallow embedding of the [Trainer] class (construction, validation
    pass, epoch loop) and of the k-fold driver under [__main__], together
    with the properties of the orchestration: best-model tracking, sliding
    window filtering, loss aggregation, early stopping, resumption, log
    cleanup and the scalar log.

    Conventions of the embedding.
    - Python [int]s are [Z]; Python/NumPy floating point numbers are
      idealised as rationals [Q] (no rounding, no NaN, no infinities).
    - Tensors and arrays are nested lists ([nd]); the leading (sample) axis
      of a batch tensor is a Rocq [list].  Device transfers ([.to], [.cpu]),
      [.data] and [.numpy()] do not change values and are omitted, and so is
      terminal output ([print], [tqdm]).
    - The model, the loss and metric registries, the optimizer, the
      learning-rate scheduler and the data pipeline are external to
      [train.py]; they are the fields of the record [Collab].
    - [utils.training_utils] ([EarlyStopping], [ModelCheckpoint]) is not part
      of the sources at hand; both are modelled from the specification.
    - Effects are explicit: a computation maps a [world] (the shared
      [Config] object, the checkpoint storage, the [./logs] directory and
      the trace of calls made on collaborators) to an [outcome], which is
      either a value or a raised exception, each with the world reached. *)

From Stdlib Require Import ZArith QArith Ascii String List Bool Lia.
From Stdlib Require Import DecimalString Permutation.
Import ListNotations.

Local Open Scope string_scope.
Local Open Scope list_scope.
Local Open Scope Z_scope.

(** ** Numbers and arrays *)

(** [a < b] on floats, as a boolean. *)
Definition Qltb (a b : Q) : bool := negb (Qle_bool b a).

(** An n-dimensional array below the sample axis. *)
#[warnings="-register-all"]
Inductive nd : Type :=
| Num (q : Q)
| Arr (items : list nd).

(** A tensor or array whose leading axis indexes the samples. *)
Definition array : Type := list nd.

Fixpoint nd_scale (c : Q) (a : nd) : nd :=
  match a with
  | Num q => Num (q * c)%Q
  | Arr items => Arr (map (nd_scale c) items)
  end.

Inductive exn : Type :=
| ValueError
| IndexError
| RuntimeError
| AttributeError
| ModuleNotFoundError
| FileNotFoundError
| IsADirectoryError
| NotADirectoryError.

(** [out * norm_factor[:, None, None]]: the factor of sample [k] multiplies
    every entry of sample [k]; leading axes of different sizes broadcast
    when one of them is 1 and are an error otherwise. *)
Definition broadcast_mul (out : array) (norm_factor : list Q) : exn + array :=
  if (length out =? length norm_factor)%nat then
    inr (map (fun p => nd_scale (snd p) (fst p)) (combine out norm_factor))
  else match out, norm_factor with
       | _, [c] => inr (map (nd_scale c) out)
       | [o], _ => inr (map (fun c => nd_scale c o) norm_factor)
       | _, _ => inl RuntimeError
       end.

(** [t[mask]] for a boolean mask over the leading axis. *)
Fixpoint select (mask : list bool) (rows : array) : array :=
  match mask, rows with
  | b :: mask', r :: rows' =>
      if b then r :: select mask' rows' else select mask' rows'
  | _, _ => []
  end.

Definition mask_index (mask : list bool) (rows : array) : exn + array :=
  if (length mask =? length rows)%nat then inr (select mask rows)
  else inl IndexError.

(** [torch.sum(mask) > 0] *)
Definition mask_any (mask : list bool) : bool := existsb (fun b => b) mask.

(** [np.concatenate(chunks, axis=0)]; an empty list of chunks is a
    [ValueError]. *)
Definition np_concatenate (chunks : list array) : exn + array :=
  match chunks with
  | [] => inl ValueError
  | _ => inr (concat chunks)
  end.

Fixpoint traverse {A B : Type} (f : A -> option B) (l : list A) : option (list B) :=
  match l with
  | [] => Some []
  | a :: l' =>
      match f a, traverse f l' with
      | Some b, Some bs => Some (b :: bs)
      | _, _ => None
      end
  end.

(** [sample[:, k]] for one sample of a prediction array. *)
Definition nd_channel (k : nat) (sample : nd) : option nd :=
  match sample with
  | Arr rows =>
      option_map Arr
        (traverse (fun row => match row with
                              | Arr chans => nth_error chans k
                              | Num _ => None
                              end) rows)
  | Num _ => None
  end.

(** [preds[:, :, 4]] *)
Definition channel_4 (preds : array) : exn + array :=
  match traverse (nd_channel 4) preds with
  | Some a => inr a
  | None => inl IndexError
  end.

Definition np_sum (l : list Q) : Q := fold_right Qplus 0%Q l.

Definition np_mean (l : list Q) : Q :=
  (np_sum l / inject_Z (Z.of_nat (length l)))%Q.

(** [range(a, b)] *)
Definition range (a b : Z) : list Z :=
  map (fun k => a + Z.of_nat k) (seq 0 (Z.to_nat (b - a))).

(** Decimal rendering of an integer, as in an f-string. *)
Definition str_of_Z (n : Z) : string := NilZero.string_of_int (Z.to_int n).

(** ** Configuration and batches *)

(** A timestamp range of a fold split. *)
Definition timestamps : Type := (Z * Z)%type.

(** The attributes of [config.Config] that [train.py] reads or writes. *)
Module Config.

Record t : Type := {
  architecture : string;
  loss_fn : string;
  metric : string;
  secondary_metric : string;
  learning_rate : Q;
  num_epochs : Z;
  sliding_window : bool;
  resume_training : bool;
  resume_from_fold : Z;
  k_fold : bool;
  k_fold_splits : list (timestamps * timestamps);
  fold : option Z;
  training_ts : timestamps;
  validation_ts : timestamps
}.

Definition set_fold (f : option Z) (c : t) : t :=
  {| architecture := architecture c; loss_fn := loss_fn c; metric := metric c;
     secondary_metric := secondary_metric c; learning_rate := learning_rate c;
     num_epochs := num_epochs c; sliding_window := sliding_window c;
     resume_training := resume_training c; resume_from_fold := resume_from_fold c;
     k_fold := k_fold c; k_fold_splits := k_fold_splits c;
     fold := f;
     training_ts := training_ts c; validation_ts := validation_ts c |}.

Definition set_split (tr va : timestamps) (c : t) : t :=
  {| architecture := architecture c; loss_fn := loss_fn c; metric := metric c;
     secondary_metric := secondary_metric c; learning_rate := learning_rate c;
     num_epochs := num_epochs c; sliding_window := sliding_window c;
     resume_training := resume_training c; resume_from_fold := resume_from_fold c;
     k_fold := k_fold c; k_fold_splits := k_fold_splits c;
     fold := fold c;
     training_ts := tr; validation_ts := va |}.

Definition set_resume_training (b : bool) (c : t) : t :=
  {| architecture := architecture c; loss_fn := loss_fn c; metric := metric c;
     secondary_metric := secondary_metric c; learning_rate := learning_rate c;
     num_epochs := num_epochs c; sliding_window := sliding_window c;
     resume_training := b; resume_from_fold := resume_from_fold c;
     k_fold := k_fold c; k_fold_splits := k_fold_splits c;
     fold := fold c;
     training_ts := training_ts c; validation_ts := validation_ts c |}.

End Config.

Abbreviation Config := Config.t.

(** One element of a batch stream:
    [[x, y, norm_factor, ids_idx, loss_input, window_id]] with
    [loss_input = [scale, weight]]. *)
Record Batch : Type := {
  x : list array;
  y : array;
  norm_factor : list Q;
  ids_idx : list Z;
  scale : array;
  weight : array;
  window_id : list Z
}.

Inductive mode : Type := TrainMode | EvalMode.

(** What [DataLoader(config)] provides.  A stream may yield different
    batches each time it is iterated; it is iterated once per epoch and is
    indexed here by the epoch. *)
Record Loaders : Type := {
  dl_ids : list Z;
  create_train_loader : Z -> list Batch;
  create_val_loader : Z -> list Batch;
  dl_n_windows : Z
}.

Definition loss_type : Type := array -> array -> array -> array -> Q.
Definition metric_type : Type := array -> array -> array -> array -> Q.

(** The external collaborators of [train.py]. *)
Record Collab : Type := {
  weights : Type;
  grads : Type;
  optstate : Type;
  schedstate : Type;
  (** [import_module('models.' + name)] and its [create_model] *)
  models : string -> option (Config -> weights);
  (** [self.model( *x )] *)
  forward : mode -> weights -> list array -> array;
  (** [getattr(loss_functions, name)] *)
  loss_functions : string -> option (Config -> loss_type);
  (** [getattr(metrics, name)()] and its [get_error] *)
  metrics : string -> option metric_type;
  (** gradients after [optimizer.zero_grad()] *)
  no_grads : grads;
  (** [loss.backward()] for the loss of a batch, accumulating *)
  backward : mode -> weights -> Batch -> grads -> grads;
  (** [torch.optim.RMSprop(params, lr, alpha=0.95)] *)
  RMSprop : weights -> Q -> optstate;
  (** [optimizer.step()] *)
  optimizer_step : optstate -> weights -> grads -> weights * optstate;
  (** [ReduceLROnPlateau(optimizer, factor=0.5, patience=4)] *)
  ReduceLROnPlateau : schedstate;
  (** [scheduler.step(val_error)], which may lower the learning rate held
      by the optimizer *)
  scheduler_step : schedstate -> optstate -> Q -> schedstate * optstate;
  DataLoader : Config -> Loaders
}.

Existing Class Collab.

(** ** The [./logs] directory *)

#[warnings="-register-all"]
Inductive fsnode : Type :=
| File
| Dir (entries : list (string * fsnode)).

Definition directory : Type := list (string * fsnode).

Fixpoint lookup_entry (name : string) (d : directory) : option fsnode :=
  match d with
  | [] => None
  | (n, node) :: rest => if String.eqb n name then Some node else lookup_entry name rest
  end.

Fixpoint remove_entry (name : string) (d : directory) : directory :=
  match d with
  | [] => []
  | (n, node) :: rest =>
      if String.eqb n name then rest else (n, node) :: remove_entry name rest
  end.

Fixpoint replace_entry (name : string) (node' : fsnode) (d : directory) : directory :=
  match d with
  | [] => []
  | (n, node) :: rest =>
      if String.eqb n name then (n, node') :: rest
      else (n, node) :: replace_entry name node' rest
  end.

(** The directory named by a path below [./logs], if there is one. *)
Fixpoint subdirectory (path : list string) (d : directory) : option directory :=
  match path with
  | [] => Some d
  | name :: path' =>
      match lookup_entry name d with
      | Some (Dir sub) => subdirectory path' sub
      | _ => None
      end
  end.

(** Apply [f] to the entry named by the path [path ++ [name]]. *)
Fixpoint at_entry (f : string -> directory -> exn + directory)
    (path : list string) (name : string) (d : directory) : exn + directory :=
  match path with
  | [] => f name d
  | dir :: path' =>
      match lookup_entry dir d with
      | Some (Dir sub) =>
          match at_entry f path' name sub with
          | inr sub' => inr (replace_entry dir (Dir sub') d)
          | inl e => inl e
          end
      | Some File => inl NotADirectoryError
      | None => inl FileNotFoundError
      end
  end.

(** [os.remove]: unlinks a file; a directory is an [IsADirectoryError]. *)
Definition unlink (name : string) (d : directory) : exn + directory :=
  match lookup_entry name d with
  | Some File => inr (remove_entry name d)
  | Some (Dir _) => inl IsADirectoryError
  | None => inl FileNotFoundError
  end.

(** [shutil.rmtree]: removes a directory with everything below it. *)
Definition rmtree (name : string) (d : directory) : exn + directory :=
  match lookup_entry name d with
  | Some (Dir _) => inr (remove_entry name d)
  | Some File => inl NotADirectoryError
  | None => inl FileNotFoundError
  end.

Definition hidden (name : string) : bool := String.prefix "." name.

(** [glob.glob(dir + '/.*') + glob.glob(dir + '/*')]: the names of the
    hidden entries of the directory, then those of the others; nothing when
    the directory does not exist. *)
Definition glob_logs (path : list string) (d : directory) : list string :=
  match subdirectory path d with
  | Some sub =>
      map fst (filter (fun e => hidden (fst e)) sub)
      ++ map fst (filter (fun e => negb (hidden (fst e))) sub)
  | None => []
  end.

(** ** Early stopping *)

(** Modelled from the spec: [utils.training_utils.EarlyStopping] is missing
    from the sources.  The monitor holds a patience bound, the best error
    seen (unset at first) and the count of consecutive epochs without
    improvement. *)
Record EarlyStopping : Type := {
  patience : Z;
  best : option Q;
  num_bad_epochs : Z
}.

(** Modelled from the spec: the monitor built by [EarlyStopping(patience=p)],
    with no best error recorded and no bad epoch counted. *)
Definition EarlyStopping_init (p : Z) : EarlyStopping :=
  {| patience := p; best := None; num_bad_epochs := 0 |}.

(** An error improves on the recorded best when it is lower. *)
Definition improves (current : Q) (recorded : option Q) : bool :=
  match recorded with
  | None => true
  | Some b => Qltb current b
  end.

(** Modelled from the spec: [EarlyStopping.step].  If no best error is
    recorded, or the current error improves on it, record it, reset the
    bad-epoch counter to 0 and return false; otherwise increment the
    counter and return whether it has reached the patience bound. *)
Definition step (es : EarlyStopping) (current_error : Q) : EarlyStopping * bool :=
  if improves current_error (best es) then
    ({| patience := patience es; best := Some current_error; num_bad_epochs := 0 |},
     false)
  else
    let n := num_bad_epochs es + 1 in
    ({| patience := patience es; best := best es; num_bad_epochs := n |},
     patience es <=? n).

(** ** Events *)

(** The calls that [train.py] makes on its collaborators, in the order in
    which they are made.  [TrainerCreated] marks the return of
    [Trainer(config)] and records the fold, whether the run was resumed,
    and the epoch at which it starts. *)
Inductive event : Type :=
| ModelTrain
| ModelEval
| ZeroGrad
| Forward (m : mode)
| Backward
| OptimizerStep
| SchedulerStep (val_error : Q)
| CheckpointLoad (namespace : option Z)
| CheckpointSave (namespace : option Z) (is_best : bool) (min_val_error : option Q)
    (bad_epochs : Z) (epoch : Z)
| SummaryWriter (namespace : option Z)
| AddScalar (tag : string) (value : Q) (global_step : Z)
| WriterClose
| TrainerCreated (namespace : option Z) (resumed : bool) (first_epoch : Z).

(** ** Reshaping *)

Fixpoint leaves (a : nd) : list Q :=
  match a with
  | Num q => [q]
  | Arr items => flat_map leaves items
  end.

Fixpoint chunks_fuel {A : Type} (fuel n : nat) (l : list A) : list (list A) :=
  match fuel with
  | O => []
  | S fuel' =>
      match l with
      | [] => []
      | _ => firstn n l :: chunks_fuel fuel' n (skipn n l)
      end
  end.

(** Consecutive groups of [n] entries. *)
Definition chunks {A : Type} (n : nat) (l : list A) : list (list A) :=
  chunks_fuel (length l) n l.

(** [a.reshape(-1)] *)
Definition reshape_1 (a : array) : array := map Num (flat_map leaves a).

(** [a.reshape(-1, n)] *)
Definition reshape_2 (n : nat) (a : array) : exn + array :=
  let flat := flat_map leaves a in
  if (length flat mod n =? 0)%nat then
    inr (map (fun row => Arr (map Num row)) (chunks n flat))
  else inl ValueError.

(** [a.reshape(-1, n, m)] *)
Definition reshape_3 (n m : nat) (a : array) : exn + array :=
  let flat := flat_map leaves a in
  if (length flat mod (n * m) =? 0)%nat then
    inr (map (fun block => Arr (map (fun row => Arr (map Num row)) (chunks m block)))
           (chunks (n * m) flat))
  else inl ValueError.

(** ** Computations with effects *)

Inductive outcome (W A : Type) : Type :=
| Ok (a : A) (w : W)
| Raise (e : exn) (w : W).

Arguments Ok {W A} a w.
Arguments Raise {W A} e w.

Definition M (W A : Type) : Type := W -> outcome W A.

Definition ret {W A : Type} (a : A) : M W A := fun w => Ok a w.

Definition bind {W A B : Type} (m : M W A) (k : A -> M W B) : M W B :=
  fun w => match m w with
           | Ok a w' => k a w'
           | Raise e w' => Raise e w'
           end.

Definition raise {W A : Type} (e : exn) : M W A := fun w => Raise e w.

(** The value of a pure computation that may raise. *)
Definition lift {W A : Type} (r : exn + A) : M W A :=
  match r with
  | inr a => ret a
  | inl e => raise e
  end.

(** A registry lookup by name. *)
Definition getattr {W A : Type} (r : option A) (e : exn) : M W A :=
  match r with
  | Some a => ret a
  | None => raise e
  end.

(** [try: m except e: handler] *)
Definition try_except {W A : Type} (m : M W A) (caught : exn -> bool) (handler : M W A)
  : M W A :=
  fun w => match m w with
           | Ok a w' => Ok a w'
           | Raise e w' => if caught e then handler w' else Raise e w'
           end.

Declare Scope monad_scope.
Delimit Scope monad_scope with monad.
Notation "v <- m ;; k" := (bind m (fun v => k))
  (at level 100, m at next level, right associativity) : monad_scope.
Notation "' pat <- m ;; k" := (bind m (fun v => match v with pat => k end))
  (at level 100, pat pattern, m at next level, right associativity) : monad_scope.
Notation "m ;; k" := (bind m (fun _ => k))
  (at level 100, right associativity) : monad_scope.
Local Open Scope monad_scope.

Definition is_IsADirectoryError (e : exn) : bool :=
  match e with
  | IsADirectoryError => true
  | _ => false
  end.

Section Training.

Context {C : Collab}.

(** ** Checkpoints *)

(** What a snapshot holds: the epoch at which it was saved, the best error
    and the bad-epoch count given to [save], and the states of the model,
    the optimizer and the scheduler. *)
Record Snapshot : Type := {
  snap_epoch : Z;
  snap_best_error : option Q;
  snap_bad_epochs : Z;
  snap_model : weights C;
  snap_optimizer : optstate C;
  snap_scheduler : schedstate C
}.

(** The two snapshots of a storage namespace. *)
Record Slot : Type := {
  latest : option Snapshot;
  best_model : option Snapshot
}.

Definition namespace_eqb (a b : option Z) : bool :=
  match a, b with
  | None, None => true
  | Some i, Some j => i =? j
  | _, _ => false
  end.

(** The state outside the [Trainer] object. *)
Record world : Type := {
  config : Config;
  checkpoints : option Z -> Slot;
  logs : directory;
  trace : list event
}.

Definition Eff (A : Type) : Type := M world A.

Definition emit (ev : event) : Eff unit :=
  fun w => Ok tt {| config := config w; checkpoints := checkpoints w;
                    logs := logs w; trace := trace w ++ [ev] |}.

Definition get_config : Eff Config := fun w => Ok (config w) w.

Definition modify_config (f : Config -> Config) : Eff unit :=
  fun w => Ok tt {| config := f (config w); checkpoints := checkpoints w;
                    logs := logs w; trace := trace w |}.

Definition get_logs : Eff directory := fun w => Ok (logs w) w.

(** A file-system call on the entry [path ++ [name]] below [./logs]. *)
Definition fs_call (f : string -> directory -> exn + directory)
    (path : list string) (name : string) : Eff unit :=
  fun w => match at_entry f path name (logs w) with
           | inr d => Ok tt {| config := config w; checkpoints := checkpoints w;
                               logs := d; trace := trace w |}
           | inl e => Raise e w
           end.

Definition os_remove : list string -> string -> Eff unit := fs_call unlink.
Definition shutil_rmtree : list string -> string -> Eff unit := fs_call rmtree.

(** Modelled from the spec: [ModelCheckpoint.save] of the missing
    [utils.training_utils].  It always writes the latest snapshot of the
    namespace and additionally the best one when [is_best] holds. *)
Definition save (ns : option Z) (is_best : bool) (best_error : option Q)
    (bad_epochs : Z) (epoch : Z) (m : weights C) (o : optstate C) (s : schedstate C)
  : Eff unit :=
  emit (CheckpointSave ns is_best best_error bad_epochs epoch) ;;
  fun w =>
    let snap := {| snap_epoch := epoch; snap_best_error := best_error;
                   snap_bad_epochs := bad_epochs; snap_model := m;
                   snap_optimizer := o; snap_scheduler := s |} in
    let old := checkpoints w ns in
    let new := {| latest := Some snap;
                  best_model := if is_best then Some snap else best_model old |} in
    Ok tt {| config := config w;
             checkpoints := fun k => if namespace_eqb k ns then new else checkpoints w k;
             logs := logs w; trace := trace w |}.

(** Modelled from the spec: [ModelCheckpoint.load] of the missing
    [utils.training_utils].  It restores the model, the optimizer and the
    scheduler from the latest snapshot of the namespace and returns them
    with the epoch to resume from (the saved epoch plus one), the best error
    and the bad-epoch count; a missing snapshot is fatal. *)
Definition load (ns : option Z) (m : weights C) (o : optstate C) (s : schedstate C)
  : Eff (weights C * optstate C * schedstate C * (Z * option Q * Z)) :=
  emit (CheckpointLoad ns) ;;
  fun w =>
    match latest (checkpoints w ns) with
    | Some snap =>
        Ok (snap_model snap, snap_optimizer snap, snap_scheduler snap,
            (snap_epoch snap + 1, snap_best_error snap, snap_bad_epochs snap)) w
    | None => Raise FileNotFoundError w
    end.

(** ** The [Trainer] object *)

Record Trainer : Type := {
  model : weights C;
  training : mode;           (* the mode set by [model.train()] / [model.eval()] *)
  grad : grads C;            (* the gradients held by the parameters *)
  criterion : loss_type;
  optimizer : optstate C;
  scheduler : schedstate C;
  early_stopping : EarlyStopping;
  agg_sum : bool;
  loss_agg : list Q -> Q;
  metric : metric_type;
  metric_2 : metric_type;
  ids : list Z;
  train_loader : Z -> list Batch;
  val_loader : Z -> list Batch;
  n_windows : Z;
  start_epoch : Z;
  min_val_error : option Q;
  model_checkpoint : option Z;    (* the namespace of the checkpoint manager *)
  writer : option Z               (* the namespace of the scalar log *)
}.

Definition with_model (t : Trainer) (m : weights C) (md : mode) (g : grads C)
    (o : optstate C) (s : schedstate C) : Trainer :=
  {| model := m; training := md; grad := g; criterion := criterion t;
     optimizer := o; scheduler := s; early_stopping := early_stopping t;
     agg_sum := agg_sum t; loss_agg := loss_agg t; metric := metric t;
     metric_2 := metric_2 t; ids := ids t; train_loader := train_loader t;
     val_loader := val_loader t; n_windows := n_windows t;
     start_epoch := start_epoch t; min_val_error := min_val_error t;
     model_checkpoint := model_checkpoint t; writer := writer t |}.

Definition with_tracking (t : Trainer) (es : EarlyStopping) (first : Z) (m : option Q)
  : Trainer :=
  {| model := model t; training := training t; grad := grad t;
     criterion := criterion t; optimizer := optimizer t; scheduler := scheduler t;
     early_stopping := es;
     agg_sum := agg_sum t; loss_agg := loss_agg t; metric := metric t;
     metric_2 := metric_2 t; ids := ids t; train_loader := train_loader t;
     val_loader := val_loader t; n_windows := n_windows t;
     start_epoch := first; min_val_error := m;
     model_checkpoint := model_checkpoint t; writer := writer t |}.

(** The prediction for a batch: [model( *x ) * norm_factor[:, None, None]]. *)
Definition prediction (md : mode) (m : weights C) (b : Batch) : exn + array :=
  broadcast_mul (forward C md m (x b)) (norm_factor b).

(** The loss of a batch: [criterion(preds, y, *loss_input)]. *)
Definition batch_loss (crit : loss_type) (preds : array) (b : Batch) : Q :=
  crit preds (y b) (scale b) (weight b).

(** The lists that a pass over a batch stream fills. *)
Record Accum : Type := {
  losses : list Q;
  epoch_preds : list array;
  epoch_ys : list array;
  epoch_ws : list array;
  epoch_scales : list array
}.

Definition no_accum : Accum :=
  {| losses := []; epoch_preds := []; epoch_ys := []; epoch_ws := [];
     epoch_scales := [] |}.

Definition append_arrays (acc : Accum) (ys scales ws preds : array) : Accum :=
  {| losses := losses acc;
     epoch_preds := epoch_preds acc ++ [preds];
     epoch_ys := epoch_ys acc ++ [ys];
     epoch_ws := epoch_ws acc ++ [ws];
     epoch_scales := epoch_scales acc ++ [scales] |}.

Definition append_loss (acc : Accum) (loss : Q) : Accum :=
  {| losses := losses acc ++ [loss];
     epoch_preds := epoch_preds acc;
     epoch_ys := epoch_ys acc;
     epoch_ws := epoch_ws acc;
     epoch_scales := epoch_scales acc |}.

(** [window_id == self.n_windows - 1] *)
Definition last_window_mask (nw : Z) (b : Batch) : list bool :=
  map (fun w => w =? nw - 1) (window_id b).

(** ** The training pass *)

(** The body of the loop over the training stream.  In sliding-window mode
    the arrays of the batch are appended only when some sample carries the
    last window index, and then only those samples are. *)
Definition train_batch (t : Trainer) (acc : Accum) (b : Batch) : Eff (Trainer * Accum) :=
  cfg <- get_config ;;
  emit ZeroGrad ;;
  let g0 := no_grads C in
  emit (Forward (training t)) ;;
  preds <- lift (prediction (training t) (model t) b) ;;
  acc1 <- (if Config.sliding_window cfg then
             let mask := last_window_mask (n_windows t) b in
             if mask_any mask then
               ys_sel <- lift (mask_index mask (y b)) ;;
               ys <- lift (reshape_2 28 ys_sel) ;;
               scales_sel <- lift (mask_index mask (scale b)) ;;
               ws_sel <- lift (mask_index mask (weight b)) ;;
               preds_sel <- lift (mask_index mask preds) ;;
               ps <- lift (reshape_3 28 9 preds_sel) ;;
               ret (append_arrays acc ys (reshape_1 scales_sel) (reshape_1 ws_sel) ps)
             else ret acc
           else ret (append_arrays acc (y b) (scale b) (weight b) preds)) ;;
  let acc2 := append_loss acc1 (batch_loss (criterion t) preds b) in
  emit Backward ;;
  let g1 := backward C (training t) (model t) b g0 in
  emit OptimizerStep ;;
  let mo := optimizer_step C (optimizer t) (model t) g1 in
  ret (with_model t (fst mo) (training t) g1 (snd mo) (scheduler t), acc2).

(** [for i, batch in enumerate(progbar)]; [k] is the index of the next
    batch, so that the loop ends with [i = k - 1]. *)
Fixpoint train_batches (t : Trainer) (acc : Accum) (k : Z) (bs : list Batch)
  : Eff (Trainer * Accum * Z) :=
  match bs with
  | [] => ret (t, acc, k)
  | b :: bs' =>
      ta <- train_batch t acc b ;;
      train_batches (fst ta) (snd ta) (k + 1) bs'
  end.

(** The four concatenations that follow a pass, in the order of the code:
    predictions, targets, weights, scales. *)
Definition concatenate_all (acc : Accum) : Eff (array * array * array * array) :=
  preds <- lift (np_concatenate (epoch_preds acc)) ;;
  ys <- lift (np_concatenate (epoch_ys acc)) ;;
  ws <- lift (np_concatenate (epoch_ws acc)) ;;
  scales <- lift (np_concatenate (epoch_scales acc)) ;;
  ret (preds, ys, ws, scales).

(** ** The validation pass *)

Definition val_batch (t : Trainer) (acc : Accum) (b : Batch) : Eff Accum :=
  emit (Forward (training t)) ;;
  preds <- lift (prediction (training t) (model t) b) ;;
  ret (append_loss (append_arrays acc (y b) (scale b) (weight b) preds)
         (batch_loss (criterion t) preds b)).

Fixpoint val_batches (t : Trainer) (acc : Accum) (bs : list Batch) : Eff Accum :=
  match bs with
  | [] => ret acc
  | b :: bs' => acc' <- val_batch t acc b ;; val_batches t acc' bs'
  end.

(** [Trainer._get_val_loss_and_err]; the epoch only selects what the
    validation stream yields. *)
Definition _get_val_loss_and_err (t : Trainer) (epoch : Z) : Eff (Trainer * (Q * Q * Q)) :=
  emit ModelEval ;;
  let t := with_model t (model t) EvalMode (grad t) (optimizer t) (scheduler t) in
  acc <- val_batches t no_accum (val_loader t epoch) ;;
  arrays <- concatenate_all acc ;;
  let '(preds, ys, ws, scales) := arrays in
  let val_error := metric t preds ys scales ws in
  preds_4 <- lift (channel_4 preds) ;;
  let val_error_2 := metric_2 t preds_4 ys scales ws in
  ret (t, (loss_agg t (losses acc), val_error, val_error_2)).

(** ** The epoch loop *)

(** Lines 178 to 188: the new best error and whether this epoch is the best
    so far. *)
Definition update_best (min_val_error : option Q) (val_error : Q) : option Q * bool :=
  match min_val_error with
  | None => (Some val_error, true)
  | Some m => if Qltb val_error m then (Some val_error, true) else (Some m, false)
  end.

Definition add_scalar (tag : string) (value : Q) (global_step : Z) : Eff unit :=
  emit (AddScalar tag value global_step).

(** The body of the loop over the epochs; the boolean tells whether the
    loop is left by [break]. *)
Definition train_epoch (t : Trainer) (epoch : Z) : Eff (Trainer * bool) :=
  cfg <- get_config ;;
  emit ModelTrain ;;
  let t := with_model t (model t) TrainMode (grad t) (optimizer t) (scheduler t) in
  pass <- train_batches t no_accum 0 (train_loader t epoch) ;;
  let '(t, acc, k) := pass in
  let i := k - 1 in
  arrays <- concatenate_all acc ;;
  let '(preds, ys, ws, scales) := arrays in
  let train_loss :=
    if agg_sum t then (loss_agg t (losses acc) / inject_Z (n_windows t))%Q
    else loss_agg t (losses acc) in
  let train_error := metric t preds ys scales ws in
  preds_4 <- lift (channel_4 preds) ;;
  let train_error_2 := metric_2 t preds_4 ys scales ws in
  val <- _get_val_loss_and_err t epoch ;;
  let '(t, (val_loss, val_error, val_error_2)) := val in
  emit (SchedulerStep val_error) ;;
  let so := scheduler_step C (scheduler t) (optimizer t) val_error in
  let t := with_model t (model t) (training t) (grad t) (snd so) (fst so) in
  let mb := update_best (min_val_error t) val_error in
  let t := with_tracking t (early_stopping t) (start_epoch t) (fst mb) in
  save (model_checkpoint t) (snd mb) (min_val_error t)
    (num_bad_epochs (early_stopping t)) epoch (model t) (optimizer t) (scheduler t) ;;
  add_scalar (Config.loss_fn cfg ++ "/train") train_loss (epoch * i) ;;
  add_scalar (Config.loss_fn cfg ++ "/val") val_loss (epoch * i) ;;
  add_scalar (Config.metric cfg ++ "/train") train_error (epoch * i) ;;
  add_scalar (Config.metric cfg ++ "/val") val_error (epoch * i) ;;
  add_scalar (Config.secondary_metric cfg ++ "/train") train_error_2 (epoch * i) ;;
  add_scalar (Config.secondary_metric cfg ++ "/val") val_error_2 (epoch * i) ;;
  let es := step (early_stopping t) val_error in
  ret (with_tracking t (fst es) (start_epoch t) (min_val_error t), snd es).

(** [for epoch in range(...)] with its [break]. *)
Fixpoint epoch_loop (t : Trainer) (epochs : list Z) : Eff Trainer :=
  match epochs with
  | [] => ret t
  | epoch :: rest =>
      ts <- train_epoch t epoch ;;
      if snd ts then ret (fst ts) else epoch_loop (fst ts) rest
  end.

(** [Trainer.train] *)
Definition train (t : Trainer) : Eff Trainer :=
  cfg <- get_config ;;
  t' <- epoch_loop t (range (start_epoch t) (Config.num_epochs cfg + 1)) ;;
  emit WriterClose ;;
  ret t'.

(** ** Construction of a [Trainer] *)

(** Lines 69 to 73: every log entry is removed as a file, and as a directory
    tree when that raises [IsADirectoryError]. *)
Fixpoint remove_logs (names : list string) : Eff unit :=
  match names with
  | [] => ret tt
  | f :: rest =>
      try_except (os_remove [] f) is_IsADirectoryError (shutil_rmtree [] f) ;;
      remove_logs rest
  end.

(** Lines 76 and 77: every entry of the log directory of the fold is removed
    as a file. *)
Fixpoint remove_fold_logs (dir : string) (names : list string) : Eff unit :=
  match names with
  | [] => ret tt
  | f :: rest => os_remove [dir] f ;; remove_fold_logs dir rest
  end.

Definition fold_dir (k : Z) : string := "fold_" ++ str_of_Z k.

(** [Trainer.__init__] *)
Definition Trainer_init : Eff Trainer :=
  cfg <- get_config ;;
  create_model <- getattr (models C (Config.architecture cfg)) ModuleNotFoundError ;;
  let model0 := create_model cfg in
  loss_class <- getattr (loss_functions C (Config.loss_fn cfg)) AttributeError ;;
  let is_sum := String.eqb (substring 0 3 (Config.loss_fn cfg)) "SPL" in
  metric_class <- getattr (metrics C (Config.metric cfg)) AttributeError ;;
  metric_2_class <- getattr (metrics C (Config.secondary_metric cfg)) AttributeError ;;
  let data_loader := DataLoader C cfg in
  let t :=
    {| model := model0; training := TrainMode; grad := no_grads C;
       criterion := loss_class cfg;
       optimizer := RMSprop C model0 (Config.learning_rate cfg);
       scheduler := ReduceLROnPlateau C;
       early_stopping := EarlyStopping_init 10;
       agg_sum := is_sum;
       loss_agg := if is_sum then np_sum else np_mean;
       metric := metric_class; metric_2 := metric_2_class;
       ids := dl_ids data_loader;
       train_loader := create_train_loader data_loader;
       val_loader := create_val_loader data_loader;
       n_windows := dl_n_windows data_loader;
       start_epoch := 1; min_val_error := None;
       model_checkpoint := Config.fold cfg; writer := Config.fold cfg |} in
  t <- (if Config.resume_training cfg then
          loaded <- load (model_checkpoint t) (model t) (optimizer t) (scheduler t) ;;
          let '(m, o, s, (first, min_err, bad)) := loaded in
          let t := with_model t m (training t) (grad t) o s in
          let es := {| patience := patience (early_stopping t);
                       best := min_err; num_bad_epochs := bad |} in
          ret (with_tracking t es first min_err)
        else
          logs <- get_logs ;;
          match Config.fold cfg with
          | None => remove_logs (glob_logs [] logs)
          | Some k => remove_fold_logs (fold_dir k) (glob_logs [fold_dir k] logs)
          end ;;
          ret t) ;;
  emit (SummaryWriter (Config.fold cfg)) ;;
  emit (TrainerCreated (Config.fold cfg) (Config.resume_training cfg) (start_epoch t)) ;;
  ret t.

(** ** The k-fold driver *)

(** [for fold, [fold_train_ts, fold_val_ts] in enumerate(config.k_fold_splits)] *)
Fixpoint fold_loop (start_fold fold : Z) (splits : list (timestamps * timestamps))
  : Eff unit :=
  match splits with
  | [] => ret tt
  | (fold_train_ts, fold_val_ts) :: rest =>
      (if fold <? start_fold then ret tt
       else
         modify_config (Config.set_fold (Some (fold + 1))) ;;
         modify_config (Config.set_split fold_train_ts fold_val_ts) ;;
         trainer <- Trainer_init ;;
         train trainer ;;
         modify_config (Config.set_resume_training false)) ;;
      fold_loop start_fold (fold + 1) rest
  end.

(** The script under [if __name__ == "__main__"]. *)
Definition main : Eff unit :=
  cfg <- get_config ;;
  if Config.k_fold cfg then
    let start_fold :=
      if Config.resume_training cfg then Config.resume_from_fold cfg - 1 else 0 in
    fold_loop start_fold 0 (Config.k_fold_splits cfg)
  else
    modify_config (Config.set_fold None) ;;
    trainer <- Trainer_init ;;
    train trainer ;;
    ret tt.

End Training.

Arguments Trainer C : clear implicits.
Arguments world C : clear implicits.
Arguments Snapshot C : clear implicits.
Arguments Slot C : clear implicits.

(** ** A small instance of the collaborators

    The weights count the optimizer steps taken, the loss of a batch is the
    sum of its scales and the error of a pass is the first target entry.
    It is used to run the definitions on concrete inputs. *)

Definition leaf_sum (a : array) : Q := np_sum (flat_map leaves a).

Definition first_leaf (a : array) : Q := hd 0%Q (flat_map leaves a).

Definition toy (ld : Loaders) : Collab :=
  {| weights := Z; grads := Z; optstate := Z; schedstate := Z;
     models := fun name => if String.eqb name "toy" then Some (fun _ => 0) else None;
     forward := fun _ _ xs => match xs with a :: _ => a | [] => [] end;
     loss_functions := fun name =>
       if String.eqb name "SPL_sum" || String.eqb name "MSE"
       then Some (fun _ _ _ scales _ => leaf_sum scales) else None;
     metrics := fun name =>
       if String.eqb name "err" then Some (fun _ ys _ _ => first_leaf ys) else None;
     no_grads := 0;
     backward := fun _ _ _ g => g + 1;
     RMSprop := fun _ _ => 0;
     optimizer_step := fun o w g => (w + g, o + 1);
     ReduceLROnPlateau := 0;
     scheduler_step := fun s o _ => (s + 1, o);
     DataLoader := fun _ => ld |}.

(** A batch with one sample per triple (window index, target value, scale):
    targets are 28 wide, inputs and predictions 28 by 9. *)
Definition toy_batch (samples : list (Z * Q * Q)) : Batch :=
  {| x := [map (fun s => Arr (repeat (Arr (repeat (Num (snd (fst s))) 9)) 28)) samples];
     y := map (fun s => Arr (repeat (Num (snd (fst s))) 28)) samples;
     norm_factor := map (fun _ => 1%Q) samples;
     ids_idx := map (fun _ => 0) samples;
     scale := map (fun s => Num (snd s)) samples;
     weight := map (fun _ => Num 1%Q) samples;
     window_id := map (fun s => fst (fst s)) samples |}.

Definition toy_config (loss : string) (epochs : Z) (sliding : bool) : Config :=
  {| Config.architecture := "toy"; Config.loss_fn := loss; Config.metric := "err";
     Config.secondary_metric := "err"; Config.learning_rate := 1%Q;
     Config.num_epochs := epochs; Config.sliding_window := sliding;
     Config.resume_training := false; Config.resume_from_fold := 1;
     Config.k_fold := false; Config.k_fold_splits := [];
     Config.fold := None; Config.training_ts := (0, 0);
     Config.validation_ts := (0, 0) |}.

Definition no_slot {C : Collab} : Slot C := {| latest := None; best_model := None |}.

(** A world with no checkpoint, the given log directory and no call made. *)
Definition fresh_world {C : Collab} (cfg : Config) (d : directory) : world C :=
  {| config := cfg; checkpoints := fun _ => no_slot; logs := d; trace := [] |}.

Definition final {C : Collab} {A : Type} (o : outcome (world C) A) : world C :=
  match o with
  | Ok _ w => w
  | Raise _ w => w
  end.

Definition value {C : Collab} {A : Type} (o : outcome (world C) A) : exn + A :=
  match o with
  | Ok a _ => inr a
  | Raise e _ => inl e
  end.

(** ** Vocabulary of the properties *)

(** The answers of the monitor to a sequence of errors, one call of [step]
    per error. *)
Fixpoint signals (es : EarlyStopping) (errors : list Q) : list bool :=
  match errors with
  | [] => []
  | v :: rest => snd (step es v) :: signals (fst (step es v)) rest
  end.

(** The rows of the samples of a batch whose window index is the last one,
    [nw - 1]. *)
Definition last_window_rows (nw : Z) (b : Batch) (rows : array) : array :=
  map snd (filter (fun p => fst p =? nw - 1) (combine (window_id b) rows)).

(** The numbers held by a list of appended arrays, in order. *)
Definition entries (appended : list array) : list Q :=
  flat_map leaves (concat appended).

Section Vocabulary.

Context {C : Collab}.

(** [w'] extends [w]: the shared configuration is the same and the trace
    has grown by events that satisfy [P]. *)
Definition extends (P : event -> Prop) (w w' : world C) : Prop :=
  config w' = config w /\
  exists evs, trace w' = trace w ++ evs /\ Forall P evs.

(** A computation respects [P] when every world it reaches, by returning
    or by raising, extends the one it started from. *)
Definition respects (P : event -> Prop) {A : Type} (m : Eff A) : Prop :=
  forall w, extends P w (final (m w)).

(** The world [w] after the calls [evs]. *)
Definition after (w : world C) (evs : list event) : world C :=
  {| config := config w; checkpoints := checkpoints w; logs := logs w;
     trace := trace w ++ evs |}.

(** [p] is the prediction for the batch [b] in the mode [md], for some
    state of the weights. *)
Definition predicted (md : mode) (b : Batch) (p : array) : Prop :=
  exists m : weights C, prediction md m b = inr p.

(** The losses of the batches [bs] with the predictions [ps], each over
    every sample of its batch. *)
Definition batch_losses (crit : loss_type) (bs : list Batch) (ps : list array) : list Q :=
  map (fun bp => batch_loss crit (snd bp) (fst bp)) (combine bs ps).

(** The rows of the last-window samples of the batches, batch after batch,
    for a choice [f] of the array of a batch and of its prediction. *)
Definition last_window_entries (nw : Z) (f : Batch -> array -> array)
    (bs : list Batch) (ps : list array) : list Q :=
  flat_map leaves
    (flat_map (fun bp => last_window_rows nw (fst bp) (f (fst bp) (snd bp)))
       (combine bs ps)).

End Vocabulary.

Section Vocabulary2.

Context {C : Collab}.

(** [t'] is [t] after updates of the model (weights and gradients) and of
    the optimizer only. *)
Definition stepped (t t' : Trainer C) : Prop :=
  exists m g o, t' = with_model t m (training t) g o (scheduler t).

(** The calls made for one training batch. *)
Definition batch_calls (md : mode) : list event :=
  [ZeroGrad; Forward md; Backward; OptimizerStep].

(** The calls made by the training pass and by the validation pass of an
    epoch over [n] and [m] batches. *)
Definition training_calls (n : nat) : list event :=
  ModelTrain :: concat (repeat (batch_calls TrainMode) n).

Definition validation_calls (m : nat) : list event :=
  ModelEval :: repeat (Forward EvalMode) m.

(** The six scalars logged at the end of an epoch. *)
Definition scalars (cfg : Config) (global_step : Z)
    (train_loss val_loss train_error val_error train_error_2 val_error_2 : Q)
  : list event :=
  [AddScalar (Config.loss_fn cfg ++ "/train") train_loss global_step;
   AddScalar (Config.loss_fn cfg ++ "/val") val_loss global_step;
   AddScalar (Config.metric cfg ++ "/train") train_error global_step;
   AddScalar (Config.metric cfg ++ "/val") val_error global_step;
   AddScalar (Config.secondary_metric cfg ++ "/train") train_error_2 global_step;
   AddScalar (Config.secondary_metric cfg ++ "/val") val_error_2 global_step].

(** [t'] has the collaborators and the settings of [t]: everything that
    [__init__] fixes and the epoch loop does not assign. *)
Definition same_setup (t t' : Trainer C) : Prop :=
  criterion t' = criterion t /\ agg_sum t' = agg_sum t /\
  loss_agg t' = loss_agg t /\ metric t' = metric t /\ metric_2 t' = metric_2 t /\
  train_loader t' = train_loader t /\ val_loader t' = val_loader t /\
  n_windows t' = n_windows t /\ start_epoch t' = start_epoch t /\
  model_checkpoint t' = model_checkpoint t /\ writer t' = writer t /\
  patience (early_stopping t') = patience (early_stopping t).

End Vocabulary2.

(** The calls of the training and validation passes: mode switches,
    forward and backward passes and optimizer steps. *)
Definition pass_event (ev : event) : Prop :=
  match ev with
  | ModelTrain | ModelEval | ZeroGrad | Forward _ | Backward | OptimizerStep => True
  | _ => False
  end.

(** The validation errors handed to the scheduler, one per completed
    epoch, in order. *)
Definition val_errors (evs : list event) : list Q :=
  flat_map (fun ev => match ev with SchedulerStep v => [v] | _ => [] end) evs.

(** The [is_best] flag and the best error of each checkpoint saved. *)
Definition saves (evs : list event) : list (bool * option Q) :=
  flat_map (fun ev => match ev with
                      | CheckpointSave _ b m _ _ => [(b, m)]
                      | _ => []
                      end) evs.

(** [m] is the minimum of the errors [l]. *)
Definition is_min (m : Q) (l : list Q) : Prop :=
  In m l /\ forall v, In v l -> (m <= v)%Q.

(** The tracked best error is unset when no error has been observed and is
    the minimum of the observed errors otherwise. *)
Definition tracks (best_error : option Q) (observed : list Q) : Prop :=
  match best_error with
  | None => observed = []
  | Some m => is_min m observed
  end.

(** The checkpoints saved agree with the errors observed: there is one
    checkpoint per observed error, it carries the minimum of the errors
    observed so far ([prior] are those of earlier runs), and it is marked
    best exactly when its error is lower than all the earlier ones. *)
Definition best_marked (prior : list Q) (evs : list event) : Prop :=
  length (saves evs) = length (val_errors evs) /\
  forall n v b m,
    nth_error (val_errors evs) n = Some v ->
    nth_error (saves evs) n = Some (b, m) ->
    tracks m (prior ++ firstn (S n) (val_errors evs)) /\
    (b = true <-> forall u, In u (prior ++ firstn n (val_errors evs)) -> (v < u)%Q).

Section Vocabulary3.

Context {C : Collab}.

(** Only the [./logs] directory differs between [w] and [w']. *)
Definition only_logs (w w' : world C) : Prop :=
  config w' = config w /\ checkpoints w' = checkpoints w /\ trace w' = trace w.

(** The aggregation of the losses that [__init__] sets up for the loss
    named in the configuration. *)
Definition aggregates (cfg : Config) (t : Trainer C) : Prop :=
  agg_sum t = String.prefix "SPL" (Config.loss_fn cfg) /\
  loss_agg t = (if agg_sum t then np_sum else np_mean).

End Vocabulary3.

(** The training loss to report for per-batch losses [ls]: their sum over
    the number of windows for a loss whose name starts with [SPL], their
    mean otherwise. *)
Definition reported_loss (name : string) (nw : Z) (ls : list Q) : Q :=
  if String.prefix "SPL" name then (np_sum ls / inject_Z nw)%Q else np_mean ls.

Section Vocabulary4.

Context {C : Collab}.

(** The epoch loop runs the epochs [done] from the state [t], [w] without
    a stop signal and without raising, and reaches the state [t'], [w']. *)
Inductive runs_on : Trainer C -> world C -> list Z -> Trainer C -> world C -> Prop :=
| runs_on_nil t w : runs_on t w [] t w
| runs_on_cons t w epoch rest t' w' t'' w'' :
    train_epoch t epoch w = Ok (t', false) w' ->
    runs_on t' w' rest t'' w'' ->
    runs_on t w (epoch :: rest) t'' w''.

End Vocabulary4.

(** The trainers created, in order: the fold, whether the run was resumed
    and the first epoch of each. *)
Definition created (evs : list event) : list (option Z * bool * Z) :=
  flat_map (fun ev => match ev with
                      | TrainerCreated ns resumed first => [(ns, resumed, first)]
                      | _ => []
                      end) evs.

(** The calls made while a trainer trains. *)
Definition training_event (ev : event) : Prop :=
  match ev with
  | TrainerCreated _ _ _ => False
  | _ => True
  end.

(** The steps under which scalars are logged, in order. *)
Definition scalar_steps (evs : list event) : list Z :=
  flat_map (fun ev => match ev with AddScalar _ _ st => [st] | _ => [] end) evs.

(** ** Concrete inputs *)

(** Streams for the small instance: the given training batches in every
    epoch, and one validation batch whose target, hence the validation
    error of epoch [e], is the [e]-th of [errors]. *)
Definition toy_loaders (train_batches : list Batch) (errors : list Q) (nw : Z) : Loaders :=
  {| dl_ids := [];
     create_train_loader := fun _ => train_batches;
     create_val_loader := fun e =>
       [toy_batch [(0, nth (Z.to_nat (e - 1)) errors 0%Q, 1%Q)]];
     dl_n_windows := nw |}.

(** The trainer that [Trainer(config)] builds for the small instance when
    the run is not resumed and no fold is active. *)
Definition toy_trainer (ld : Loaders) (loss : string) : Trainer (toy ld) :=
  @Build_Trainer (toy ld)
    0 TrainMode 0
    (fun _ _ scales _ => leaf_sum scales)
    0 0
    (EarlyStopping_init 10)
    (String.eqb (substring 0 3 loss) "SPL")
    (if String.eqb (substring 0 3 loss) "SPL" then np_sum else np_mean)
    (fun _ ys _ _ => first_leaf ys)
    (fun _ ys _ _ => first_leaf ys)
    (dl_ids ld) (create_train_loader ld) (create_val_loader ld) (dl_n_windows ld)
    1 None None None.

(** Two training batches with losses 4 and 6, two windows. *)
Definition two_batches : Loaders :=
  toy_loaders [toy_batch [(0, 1%Q, 4%Q)]; toy_batch [(0, 1%Q, 6%Q)]] [3; 5; 2]%Q 2.

(** One training batch only. *)
Definition one_batch : Loaders :=
  toy_loaders [toy_batch [(0, 1%Q, 4%Q)]] [3; 5; 2]%Q 1.

(** One batch of six samples over three windows, with window indices
    0, 1, 2, 0, 1, 2, targets 10 to 15 and scales 1 to 6. *)
Definition six_samples : Batch :=
  toy_batch [(0, 10%Q, 1%Q); (1, 11%Q, 2%Q); (2, 12%Q, 3%Q);
             (0, 13%Q, 4%Q); (1, 14%Q, 5%Q); (2, 15%Q, 6%Q)].

Definition three_windows : Loaders := toy_loaders [six_samples] [3; 5; 2]%Q 3.

(** A configuration for cross-validation over three folds that resumes
    from fold 2. *)
Definition three_folds : Config :=
  {| Config.architecture := "toy"; Config.loss_fn := "MSE"; Config.metric := "err";
     Config.secondary_metric := "err"; Config.learning_rate := 1%Q;
     Config.num_epochs := 2; Config.sliding_window := false;
     Config.resume_training := true; Config.resume_from_fold := 2;
     Config.k_fold := true;
     Config.k_fold_splits := [((0, 1), (1, 2)); ((0, 2), (2, 3)); ((0, 3), (3, 4))];
     Config.fold := None; Config.training_ts := (0, 0);
     Config.validation_ts := (0, 0) |}.

(** A world in which fold 2 was checkpointed at epoch 1. *)
Definition fold_2_saved (ld : Loaders) : world (toy ld) :=
  @Build_world (toy ld) three_folds
    (fun ns =>
       if namespace_eqb ns (Some 2)
       then @Build_Slot (toy ld)
              (Some (@Build_Snapshot (toy ld) 1 (Some 3%Q) 0 2 2 1)) None
       else no_slot)
    [] [].

(** A trainer as restored after nine epochs without improvement on a best
    error of 0. *)
Definition nine_bad_epochs (ld : Loaders) : Trainer (toy ld) :=
  with_tracking (toy_trainer ld "MSE")
    {| patience := 10; best := Some 0%Q; num_bad_epochs := 9 |} 2 (Some 0%Q).

(** A training stream of four batches in epoch 1 and of two afterwards. *)
Definition shrinking : Loaders :=
  {| dl_ids := [];
     create_train_loader := fun e =>
       if e =? 1 then repeat (toy_batch [(0, 1%Q, 1%Q)]) 4
       else repeat (toy_batch [(0, 1%Q, 1%Q)]) 2;
     create_val_loader := fun _ => [toy_batch [(0, 1%Q, 1%Q)]];
     dl_n_windows := 1 |}.

(** A log directory with a file and a directory of an earlier run. *)
Definition old_logs : directory :=
  [("events.out.tfevents", File); ("old_run", Dir [("events.out.tfevents", File)])].

(** Whether a run returns, and whether an epoch returns with the stop
    signal. *)
Definition is_ok {W A : Type} (o : outcome W A) : bool :=
  match o with
  | Ok _ _ => true
  | Raise _ _ => false
  end.

Definition stops {W A : Type} (o : outcome W (A * bool)) : bool :=
  match o with
  | Ok (_, b) _ => b
  | Raise _ _ => false
  end.

(** ** Early stopping *)

Lemma Qltb_lt (a b : Q) : Qltb a b = true <-> (a < b)%Q.
Proof.
  unfold Qltb. rewrite negb_true_iff. split; intros H.
  - apply Qnot_le_lt. intros Hle. apply Qle_bool_iff in Hle. congruence.
  - destruct (Qle_bool b a) eqn:E; [|reflexivity].
    apply Qle_bool_iff in E. exfalso. exact (Qlt_not_le _ _ H E).
Qed.

Lemma Qltb_ge (a b : Q) : Qltb a b = false <-> (b <= a)%Q.
Proof.
  unfold Qltb. rewrite negb_false_iff. apply Qle_bool_iff.
Qed.

Lemma improves_spec (v : Q) (recorded : option Q) :
  improves v recorded = true <->
  recorded = None \/ exists b, recorded = Some b /\ (v < b)%Q.
Proof.
  destruct recorded as [b|]; simpl.
  - rewrite Qltb_lt. split.
    + intros H. right. exists b. auto.
    + intros [H | [b' [H1 H2]]]; [discriminate | congruence].
  - split; auto.
Qed.

(** After a best error [b] is recorded and [n] bad epochs are counted, the
    [j]-th of a run of errors that do not improve on [b] is answered by
    whether [n + j] has reached the patience bound. *)
Lemma signals_no_improvement (p : Z) (b : Q) (rest : list Q) :
  (forall v, In v rest -> ~ (v < b)%Q) ->
  forall n,
    signals {| patience := p; best := Some b; num_bad_epochs := n |} rest
    = map (fun j => p <=? n + Z.of_nat j) (seq 1 (length rest)).
Proof.
  induction rest as [|v rest IH]; intros Hbad n; [reflexivity|].
  assert (Hv : Qltb v b = false).
  { destruct (Qltb v b) eqn:E; [|reflexivity].
    apply Qltb_lt in E. exfalso. apply (Hbad v); simpl; auto. }
  cbn [signals length seq map]. unfold step at 1 2. cbn [best improves].
  rewrite Hv. cbn [fst snd patience num_bad_epochs best].
  f_equal.
  rewrite IH by (intros u Hu; apply Hbad; simpl; auto).
  rewrite <- (seq_shift (length rest) 1), map_map. apply map_ext. intros j. f_equal. lia.
Qed.

(** C4 (the early-stopping step, modelled from the specification).  A call
    of [step] with no best error recorded, or with an error lower than the
    recorded best, records the error, resets the count of bad epochs to 0
    and returns false; any other call keeps the best error, increments the
    count and returns true exactly when the incremented count has reached
    the patience bound.  Hence, for a fresh monitor of patience [p >= 1]
    that sees a first error and then exactly [p] errors that do not improve
    on it, every call before the last returns false and the last one, the
    [p]-th without improvement, returns true. *)
Theorem early_stopping_step (p : Z) (e0 : Q) (rest : list Q) :
  1 <= p ->
  Z.of_nat (length rest) = p ->
  (forall v, In v rest -> ~ (v < e0)%Q) ->
  (forall es v,
      (best es = None \/ exists b, best es = Some b /\ (v < b)%Q) ->
      step es v
      = ({| patience := patience es; best := Some v; num_bad_epochs := 0 |}, false))
  /\ (forall es v b,
      best es = Some b -> ~ (v < b)%Q ->
      fst (step es v)
      = {| patience := patience es; best := Some b;
           num_bad_epochs := num_bad_epochs es + 1 |}
      /\ (snd (step es v) = true <-> patience es <= num_bad_epochs es + 1))
  /\ signals (EarlyStopping_init p) (e0 :: rest)
     = false :: repeat false (Z.to_nat p - 1) ++ [true].
Proof.
  intros Hp Hlen Hbad. split; [|split].
  - intros es v H. apply improves_spec in H. unfold step. rewrite H. reflexivity.
  - intros es v b Hb Hv. unfold step.
    assert (E : improves v (best es) = false).
    { rewrite Hb. simpl. apply Qltb_ge. apply Qnot_lt_le. exact Hv. }
    rewrite E. cbn [fst snd]. rewrite Hb. split; [reflexivity|].
    apply Z.leb_le.
  - cbn [signals]. unfold step at 1 2. cbn [EarlyStopping_init best improves fst snd patience].
    f_equal. rewrite signals_no_improvement by assumption.
    assert (Hl : length rest = S (Z.to_nat p - 1)) by lia.
    rewrite Hl. rewrite seq_S, map_app. cbn [map]. f_equal.
    + transitivity (map (fun _ : nat => false) (seq 1 (Z.to_nat p - 1))).
      * apply map_ext_in. intros j Hj. apply in_seq in Hj. apply Z.leb_gt. lia.
      * rewrite map_const, length_seq. reflexivity.
    + f_equal. apply Z.leb_le. lia.
Qed.

Lemma early_stopping_step_witness :
  signals (EarlyStopping_init 2) [5%Q; 5%Q; 6%Q] = [false; false; true].
Proof.
  exact (proj2 (proj2 (early_stopping_step 2 5%Q [5%Q; 6%Q] ltac:(lia) eq_refl
    ltac:(intros v [H | [H | []]]; subst v; intros Hlt; apply Qltb_lt in Hlt; discriminate)))).
Defined.

(** ** Masks and reshaping *)

Lemma select_filter (f : Z -> bool) (wids : list Z) (rows : array) :
  select (map f wids) rows
  = map snd (filter (fun p => f (fst p)) (combine wids rows)).
Proof.
  revert rows. induction wids as [|wid wids IH]; intros [|r rows]; simpl; try reflexivity.
  destruct (f wid); simpl; rewrite IH; reflexivity.
Qed.

Lemma mask_index_last_window (nw : Z) (b : Batch) (rows sel : array) :
  mask_index (last_window_mask nw b) rows = inr sel ->
  sel = last_window_rows nw b rows.
Proof.
  unfold mask_index, last_window_mask, last_window_rows.
  destruct (_ =? _)%nat; [|discriminate].
  intros H. inversion H. apply select_filter.
Qed.

Lemma select_none (mask : list bool) (rows : array) :
  mask_any mask = false -> select mask rows = [].
Proof.
  revert rows. induction mask as [|m mask IH]; intros rows H; [reflexivity|].
  simpl in H. apply orb_false_iff in H. destruct H as [Hm H]. subst m.
  destruct rows; simpl; auto.
Qed.

Lemma last_window_rows_none (nw : Z) (b : Batch) (rows : array) :
  mask_any (last_window_mask nw b) = false -> last_window_rows nw b rows = [].
Proof.
  intros H. unfold last_window_rows.
  rewrite <- (select_filter (fun w => w =? nw - 1)). apply select_none. exact H.
Qed.

Lemma concat_chunks_fuel {A : Type} (n : nat) (l : list A) (fuel : nat) :
  (0 < n)%nat -> (length l <= fuel)%nat -> concat (chunks_fuel fuel n l) = l.
Proof.
  intros Hn. revert l. induction fuel as [|fuel IH]; intros l Hl.
  - destruct l; [reflexivity | simpl in Hl; lia].
  - destruct l as [|a l]; [reflexivity|].
    cbn [chunks_fuel concat]. rewrite IH.
    + apply firstn_skipn.
    + rewrite length_skipn. cbn [length] in *. lia.
Qed.

Lemma concat_chunks {A : Type} (n : nat) (l : list A) :
  (0 < n)%nat -> concat (chunks n l) = l.
Proof. intros Hn. apply concat_chunks_fuel; auto. Qed.

Lemma leaves_row (row : list Q) : flat_map leaves (map Num row) = row.
Proof. induction row; simpl; congruence. Qed.

Lemma leaves_rows (rows : list (list Q)) :
  flat_map leaves (map (fun row => Arr (map Num row)) rows) = concat rows.
Proof.
  induction rows as [|r rows IH]; [reflexivity|].
  simpl. rewrite IH. f_equal. apply leaves_row.
Qed.

Lemma leaves_reshape_1 (a : array) :
  flat_map leaves (reshape_1 a) = flat_map leaves a.
Proof. apply leaves_row. Qed.

Lemma leaves_reshape_2 (n : nat) (a r : array) :
  (0 < n)%nat -> reshape_2 n a = inr r -> flat_map leaves r = flat_map leaves a.
Proof.
  intros Hn. unfold reshape_2. destruct (_ =? _)%nat; [|discriminate].
  intros H. inversion H. rewrite leaves_rows. apply concat_chunks. exact Hn.
Qed.

Lemma leaves_blocks (m : nat) (blocks : list (list Q)) :
  (0 < m)%nat ->
  flat_map leaves
    (map (fun block => Arr (map (fun row => Arr (map Num row)) (chunks m block))) blocks)
  = concat blocks.
Proof.
  intros Hm. induction blocks as [|blk blks IH]; [reflexivity|].
  cbn [map flat_map concat]. rewrite IH. f_equal.
  cbn [leaves]. rewrite leaves_rows. apply concat_chunks. exact Hm.
Qed.

Lemma leaves_reshape_3 (n m : nat) (a r : array) :
  (0 < n)%nat -> (0 < m)%nat ->
  reshape_3 n m a = inr r -> flat_map leaves r = flat_map leaves a.
Proof.
  intros Hn Hm. unfold reshape_3. destruct (_ =? _)%nat; [|discriminate].
  intros H. inversion H. clear H.
  rewrite leaves_blocks by exact Hm. apply concat_chunks. lia.
Qed.

Lemma entries_app (l1 l2 : list array) : entries (l1 ++ l2) = entries l1 ++ entries l2.
Proof. unfold entries. rewrite concat_app, flat_map_app. reflexivity. Qed.

Lemma entries_one (a : array) : entries [a] = flat_map leaves a.
Proof. unfold entries. simpl. rewrite app_nil_r. reflexivity. Qed.

(** * Properties of the orchestration *)

Section Properties.

Context {C : Collab}.

Local Open Scope monad_scope.

(** ** Worlds reached by a computation *)

Lemma extends_refl P (w : world C) : extends P w w.
Proof.
  split; [reflexivity|]. exists []. rewrite app_nil_r. auto.
Qed.

Lemma extends_trans P (w1 w2 w3 : world C) :
  extends P w1 w2 -> extends P w2 w3 -> extends P w1 w3.
Proof.
  intros [Hc1 [e1 [Ht1 Hf1]]] [Hc2 [e2 [Ht2 Hf2]]]. split; [congruence|].
  exists (e1 ++ e2). rewrite Ht2, Ht1, app_assoc. split; [reflexivity|].
  apply Forall_app; auto.
Qed.

Lemma extends_weaken (P P' : event -> Prop) (w w' : world C) :
  (forall ev, P ev -> P' ev) -> extends P w w' -> extends P' w w'.
Proof.
  intros HP [Hc [evs [Ht Hf]]]. split; [assumption|]. exists evs. split; [assumption|].
  eapply Forall_impl; eauto.
Qed.

Lemma respects_ret P A (a : A) : respects P (ret a : Eff A).
Proof. intros w. apply extends_refl. Qed.

Lemma respects_raise P A (e : exn) : respects P (raise e : Eff A).
Proof. intros w. apply extends_refl. Qed.

Lemma respects_lift P A (r : exn + A) : respects P (lift r : Eff A).
Proof. destruct r; [apply respects_raise | apply respects_ret]. Qed.

Lemma respects_getattr P A (r : option A) e : respects P (getattr r e : Eff A).
Proof. destruct r; [apply respects_ret | apply respects_raise]. Qed.

Lemma respects_get_config P : respects P get_config.
Proof. intros w. apply extends_refl. Qed.

Lemma respects_emit (P : event -> Prop) ev : P ev -> respects P (emit ev).
Proof.
  intros H w. split; [reflexivity|]. exists [ev]. simpl. auto.
Qed.

Lemma respects_bind P A B (m : Eff A) (k : A -> Eff B) :
  respects P m -> (forall a, respects P (k a)) -> respects P (bind m k).
Proof.
  intros Hm Hk w. unfold bind. specialize (Hm w).
  destruct (m w) as [a w1 | e w1]; simpl in *; [|assumption].
  eapply extends_trans; [eassumption | apply Hk].
Qed.

Lemma respects_weaken (P P' : event -> Prop) A (m : Eff A) :
  (forall ev, P ev -> P' ev) -> respects P m -> respects P' m.
Proof. intros HP Hm w. eapply extends_weaken; eauto. Qed.

(** ** Inversion of computations that return *)

Lemma bind_Ok A B (m : Eff A) (k : A -> Eff B) w b w' :
  bind m k w = Ok b w' -> exists a w1, m w = Ok a w1 /\ k a w1 = Ok b w'.
Proof.
  unfold bind. destruct (m w) as [a w1 | e w1]; [|discriminate]. eauto.
Qed.

Lemma lift_Ok A (r : exn + A) (w : world C) a w' :
  lift r w = Ok a w' -> r = inr a /\ w' = w.
Proof.
  destruct r; simpl; unfold raise, ret; intros H; inversion H; auto.
Qed.

Lemma ret_Ok A (a : A) (w : world C) a' w' :
  ret a w = Ok a' w' -> a' = a /\ w' = w.
Proof. unfold ret. intros H. inversion H. auto. Qed.

Lemma emit_Ok ev (w : world C) u w' :
  emit ev w = Ok u w' -> w' = after w [ev].
Proof. unfold emit, after. intros H. inversion H. reflexivity. Qed.

Lemma get_config_Ok (w : world C) c w' :
  get_config w = Ok c w' -> c = config w /\ w' = w.
Proof. unfold get_config. intros H. inversion H. auto. Qed.

Lemma after_after (w : world C) e1 e2 : after (after w e1) e2 = after w (e1 ++ e2).
Proof. unfold after. simpl. rewrite app_assoc. reflexivity. Qed.

Lemma after_nil (w : world C) : after w [] = w.
Proof. destruct w. unfold after. simpl. rewrite app_nil_r. reflexivity. Qed.

(** Break an equation [m w = Ok a w'] along the binds of [m]. *)
Ltac invert_run H :=
  repeat match type of H with
  | bind _ _ _ = Ok _ _ =>
      let a := fresh "a" in let w := fresh "w" in
      let H1 := fresh "Hrun" in
      apply bind_Ok in H; destruct H as [a [w [H1 H]]]
  end.

Ltac invert_atom H :=
  match type of H with
  | get_config _ = Ok ?c ?w' =>
      apply get_config_Ok in H; destruct H as [? ?]; subst c; subst w'
  | emit _ _ = Ok _ ?w' => apply emit_Ok in H; subst w'
  | lift _ _ = Ok _ ?w' =>
      let E := fresh "E" in
      apply lift_Ok in H; destruct H as [H E]; subst w'
  | ret _ _ = Ok _ ?w' =>
      let E := fresh "E" in
      apply ret_Ok in H; destruct H as [H E]; subst w'
  end.

Ltac inv_bind H a w Ha :=
  apply bind_Ok in H; destruct H as [a [w [Ha H]]].

(** ** The training pass *)

(** The trainer after the optimizer step of a batch. *)
Lemma train_batch_Ok (t : Trainer C) acc b (w : world C) t' acc' w' :
  train_batch t acc b w = Ok (t', acc') w' ->
  exists p,
    prediction (training t) (model t) b = inr p /\
    (exists m g o, t' = with_model t m (training t) g o (scheduler t)) /\
    w' = after w [ZeroGrad; Forward (training t); Backward; OptimizerStep] /\
    losses acc' = losses acc ++ [batch_loss (criterion t) p b] /\
    (Config.sliding_window (config w) = false ->
       epoch_preds acc' = epoch_preds acc ++ [p] /\
       epoch_ys acc' = epoch_ys acc ++ [y b] /\
       epoch_ws acc' = epoch_ws acc ++ [weight b] /\
       epoch_scales acc' = epoch_scales acc ++ [scale b]) /\
    (Config.sliding_window (config w) = true ->
       entries (epoch_preds acc')
       = entries (epoch_preds acc) ++ flat_map leaves (last_window_rows (n_windows t) b p) /\
       entries (epoch_ys acc')
       = entries (epoch_ys acc) ++ flat_map leaves (last_window_rows (n_windows t) b (y b)) /\
       entries (epoch_ws acc')
       = entries (epoch_ws acc) ++ flat_map leaves (last_window_rows (n_windows t) b (weight b)) /\
       entries (epoch_scales acc')
       = entries (epoch_scales acc) ++ flat_map leaves (last_window_rows (n_windows t) b (scale b))).
Proof.
  unfold train_batch. intros H.
  inv_bind H cfg w1 H1. invert_atom H1.
  inv_bind H u2 w2 H2. invert_atom H2.
  inv_bind H u3 w3 H3. invert_atom H3.
  inv_bind H p w4 H4. invert_atom H4.
  inv_bind H acc1 w5 H5.
  inv_bind H u6 w6 H6. invert_atom H6.
  inv_bind H u7 w7 H7. invert_atom H7.
  invert_atom H. inversion H; subst t' acc'; clear H.
  exists p. split; [assumption|]. split; [unfold stepped; eauto|].
  rewrite !after_after in *. cbn [app] in *.
  destruct (Config.sliding_window (config w)) eqn:Hs.
  - destruct (mask_any (last_window_mask (n_windows t) b)) eqn:Hany.
    + inv_bind H5 ys_sel v1 G1. invert_atom G1.
      inv_bind H5 ys v2 G2. invert_atom G2.
      inv_bind H5 scales_sel v3 G3. invert_atom G3.
      inv_bind H5 ws_sel v4 G4. invert_atom G4.
      inv_bind H5 preds_sel v5 G5. invert_atom G5.
      inv_bind H5 ps v6 G6. invert_atom G6.
      invert_atom H5. subst acc1.
      rewrite !after_after. cbn [app]. split; [reflexivity|].
      cbn [append_loss append_arrays losses epoch_preds epoch_ys epoch_ws epoch_scales].
      split; [reflexivity|]. split; [discriminate|]. intros _.
      rewrite !entries_app, !entries_one, !leaves_reshape_1.
      apply mask_index_last_window in G1, G3, G4, G5. subst.
      rewrite (leaves_reshape_2 28 _ _ ltac:(lia) G2).
      rewrite (leaves_reshape_3 28 9 _ _ ltac:(lia) ltac:(lia) G6).
      auto.
    + invert_atom H5. subst acc1.
      rewrite !after_after. cbn [app]. split; [reflexivity|].
      cbn [append_loss losses epoch_preds epoch_ys epoch_ws epoch_scales].
      split; [reflexivity|]. split; [discriminate|]. intros _.
      rewrite !last_window_rows_none by assumption. cbn [flat_map].
      rewrite !app_nil_r. auto.
  - invert_atom H5. subst acc1.
    rewrite !after_after. cbn [app]. split; [reflexivity|].
    cbn [append_loss append_arrays losses epoch_preds epoch_ys epoch_ws epoch_scales].
    split; [reflexivity|]. split; [auto | discriminate].
Qed.

Lemma stepped_refl (t : Trainer C) : stepped t t.
Proof. exists (model t), (grad t), (optimizer t). destruct t; reflexivity. Qed.

Lemma stepped_trans (t1 t2 t3 : Trainer C) :
  stepped t1 t2 -> stepped t2 t3 -> stepped t1 t3.
Proof.
  intros [m [g [o H]]] [m' [g' [o' H']]]. subst. exists m', g', o'. reflexivity.
Qed.

Lemma stepped_fields (t t' : Trainer C) :
  stepped t t' ->
  training t' = training t /\ criterion t' = criterion t /\
  n_windows t' = n_windows t /\ scheduler t' = scheduler t /\
  early_stopping t' = early_stopping t /\ min_val_error t' = min_val_error t /\
  start_epoch t' = start_epoch t /\ model_checkpoint t' = model_checkpoint t /\
  agg_sum t' = agg_sum t /\ loss_agg t' = loss_agg t /\
  metric t' = metric t /\ metric_2 t' = metric_2 t /\
  train_loader t' = train_loader t /\ val_loader t' = val_loader t /\
  writer t' = writer t /\ ids t' = ids t.
Proof. intros [m [g [o H]]]. subst. repeat split. Qed.

Lemma train_batches_Ok (bs : list Batch) :
  forall (t : Trainer C) acc k (w : world C) t' acc' k' w',
  train_batches t acc k bs w = Ok (t', acc', k') w' ->
  k' = k + Z.of_nat (length bs) /\
  stepped t t' /\
  w' = after w (concat (repeat (batch_calls (training t)) (length bs))) /\
  exists ps,
    Forall2 (predicted (training t)) bs ps /\
    losses acc' = losses acc ++ batch_losses (criterion t) bs ps /\
    (Config.sliding_window (config w) = false ->
       epoch_preds acc' = epoch_preds acc ++ ps /\
       epoch_ys acc' = epoch_ys acc ++ map y bs /\
       epoch_ws acc' = epoch_ws acc ++ map weight bs /\
       epoch_scales acc' = epoch_scales acc ++ map scale bs) /\
    (Config.sliding_window (config w) = true ->
       entries (epoch_preds acc')
       = entries (epoch_preds acc)
         ++ last_window_entries (n_windows t) (fun _ p => p) bs ps /\
       entries (epoch_ys acc')
       = entries (epoch_ys acc)
         ++ last_window_entries (n_windows t) (fun b _ => y b) bs ps /\
       entries (epoch_ws acc')
       = entries (epoch_ws acc)
         ++ last_window_entries (n_windows t) (fun b _ => weight b) bs ps /\
       entries (epoch_scales acc')
       = entries (epoch_scales acc)
         ++ last_window_entries (n_windows t) (fun b _ => scale b) bs ps).
Proof.
  induction bs as [|b bs IH]; intros t acc k w t' acc' k' w' H.
  - cbn [train_batches] in H. invert_atom H. inversion H; subst; clear H.
    split; [simpl; lia|]. split; [apply stepped_refl|].
    split; [symmetry; apply after_nil|].
    exists []. split; [constructor|].
    unfold batch_losses, last_window_entries. cbn [combine map flat_map].
    rewrite !app_nil_r. repeat split.
  - cbn [train_batches] in H. invert_run H.
    destruct a as [t1 acc1]. cbn [fst snd] in H.
    apply train_batch_Ok in Hrun.
    destruct Hrun as [p [Hp [Hst [Hw [Hl [Hns Hs]]]]]].
    apply IH in H. destruct H as [Hk [Hst' [Hw' [ps [Hps [Hl' [Hns' Hs']]]]]]].
    destruct (stepped_fields _ _ Hst) as [Etr [Ecr [Enw _]]].
    assert (Hcfg : config w0 = config w) by (subst w0; reflexivity).
    rewrite Hcfg in *. rewrite Etr, Enw in *.
    split; [cbn [length]; lia|].
    split; [eapply stepped_trans; eassumption|].
    split; [subst; rewrite after_after; reflexivity|].
    exists (p :: ps). split.
    + constructor; [exists (model t); assumption|].
      exact Hps.
    + split.
      * rewrite Hl', Hl. unfold batch_losses. cbn [combine map fst snd].
        rewrite Ecr, <- app_assoc. reflexivity.
      * split.
        -- intros E. destruct (Hns E) as [H1 [H2 [H3 H4]]].
           destruct (Hns' E) as [H1' [H2' [H3' H4']]].
           rewrite H1', H2', H3', H4', H1, H2, H3, H4. cbn [map].
           rewrite <- !app_assoc. auto.
        -- intros E. destruct (Hs E) as [H1 [H2 [H3 H4]]].
           destruct (Hs' E) as [H1' [H2' [H3' H4']]].
           rewrite H1', H2', H3', H4', H1, H2, H3, H4.
           unfold last_window_entries. cbn [combine flat_map fst snd].
           rewrite !flat_map_app, <- !app_assoc. auto.
Qed.

(** ** The validation pass *)

Lemma val_batch_Ok (t : Trainer C) acc b (w : world C) acc' w' :
  val_batch t acc b w = Ok acc' w' ->
  exists p,
    prediction (training t) (model t) b = inr p /\
    w' = after w [Forward (training t)] /\
    acc' = append_loss (append_arrays acc (y b) (scale b) (weight b) p)
             (batch_loss (criterion t) p b).
Proof.
  unfold val_batch. intros H.
  inv_bind H u1 w1 H1. invert_atom H1.
  inv_bind H p w2 H2. invert_atom H2.
  invert_atom H. subst acc'. eauto.
Qed.

Lemma val_batches_Ok (t : Trainer C) (bs : list Batch) :
  forall acc (w : world C) acc' w',
  val_batches t acc bs w = Ok acc' w' ->
  w' = after w (repeat (Forward (training t)) (length bs)) /\
  exists ps,
    Forall2 (fun b p => prediction (training t) (model t) b = inr p) bs ps /\
    losses acc' = losses acc ++ batch_losses (criterion t) bs ps /\
    epoch_preds acc' = epoch_preds acc ++ ps /\
    epoch_ys acc' = epoch_ys acc ++ map y bs /\
    epoch_ws acc' = epoch_ws acc ++ map weight bs /\
    epoch_scales acc' = epoch_scales acc ++ map scale bs.
Proof.
  induction bs as [|b bs IH]; intros acc w acc' w' H.
  - cbn [val_batches] in H. invert_atom H. subst acc'.
    split; [symmetry; apply after_nil|]. exists []. split; [constructor|].
    unfold batch_losses. cbn [combine map]. rewrite !app_nil_r. repeat split.
  - cbn [val_batches] in H. inv_bind H a w1 Hrun.
    apply val_batch_Ok in Hrun. destruct Hrun as [p [Hp [Hw Hacc]]].
    apply IH in H. destruct H as [Hw' [ps [Hps [Hl [H1 [H2 [H3 H4]]]]]]].
    split; [subst; rewrite after_after; reflexivity|].
    exists (p :: ps). split; [constructor; assumption|].
    rewrite Hl, H1, H2, H3, H4. subst a.
    cbn [append_loss append_arrays losses epoch_preds epoch_ys epoch_ws epoch_scales].
    unfold batch_losses. cbn [combine map fst snd].
    rewrite <- !app_assoc. repeat split.
Qed.

Lemma np_concatenate_Ok (chunks : list array) (a : array) :
  np_concatenate chunks = inr a -> chunks <> [] /\ a = concat chunks.
Proof.
  destruct chunks; simpl; intros H; inversion H. split; [discriminate | reflexivity].
Qed.

Lemma concatenate_all_Ok acc (w : world C) preds ys ws scales w' :
  concatenate_all acc w = Ok (preds, ys, ws, scales) w' ->
  w' = w /\ epoch_preds acc <> [] /\
  preds = concat (epoch_preds acc) /\ ys = concat (epoch_ys acc) /\
  ws = concat (epoch_ws acc) /\ scales = concat (epoch_scales acc).
Proof.
  unfold concatenate_all. intros H.
  inv_bind H a1 w1 H1. invert_atom H1.
  inv_bind H a2 w2 H2. invert_atom H2.
  inv_bind H a3 w3 H3. invert_atom H3.
  inv_bind H a4 w4 H4. invert_atom H4.
  invert_atom H. inversion H; subst; clear H.
  apply np_concatenate_Ok in H1, H2, H3, H4.
  destruct H1, H2, H3, H4. auto 10.
Qed.

Lemma get_val_Ok (t : Trainer C) (epoch : Z) (w : world C) t' val_loss val_error val_error_2 w' :
  _get_val_loss_and_err t epoch w = Ok (t', (val_loss, val_error, val_error_2)) w' ->
  let bs := val_loader t epoch in
  t' = with_model t (model t) EvalMode (grad t) (optimizer t) (scheduler t) /\
  w' = after w (validation_calls (length bs)) /\
  exists ps preds_4,
    Forall2 (fun b p => prediction EvalMode (model t) b = inr p) bs ps /\
    channel_4 (concat ps) = inr preds_4 /\
    val_loss = loss_agg t (batch_losses (criterion t) bs ps) /\
    val_error
    = metric t (concat ps) (flat_map y bs) (flat_map scale bs) (flat_map weight bs) /\
    val_error_2
    = metric_2 t preds_4 (flat_map y bs) (flat_map scale bs) (flat_map weight bs).
Proof.
  unfold _get_val_loss_and_err. intros H.
  inv_bind H u1 w1 G1. invert_atom G1.
  inv_bind H acc w2 G2. apply val_batches_Ok in G2.
  cbn [training model criterion with_model] in G2.
  destruct G2 as [Hw [ps [Hps [Hl [H1 [H2 [H3 H4]]]]]]].
  inv_bind H arrays w3 G3. destruct arrays as [[[preds ys] ws] scales].
  apply concatenate_all_Ok in G3.
  destruct G3 as [Ew [_ [Ep [Ey [Ews Es]]]]].
  inv_bind H preds_4 w4 G4. invert_atom G4.
  invert_atom H. inversion H; subst; clear H.
  cbn [val_loader with_model] in *.
  rewrite H1, H2, H3, H4 in *. cbn [no_accum epoch_preds epoch_ys epoch_ws epoch_scales losses app] in *.
  rewrite Hl. rewrite !flat_map_concat_map.
  split; [reflexivity|]. split; [rewrite after_after; reflexivity|].
  exists ps, preds_4. repeat split; assumption.
Qed.

(** ** One epoch *)

Lemma step_patience (es : EarlyStopping) (v : Q) :
  patience (fst (step es v)) = patience es.
Proof. unfold step. destruct (improves v (best es)); reflexivity. Qed.

Lemma save_Ok ns is_best best_error bad epoch (m : weights C) o s (w : world C) u w' :
  save ns is_best best_error bad epoch m o s w = Ok u w' ->
  config w' = config w /\ logs w' = logs w /\
  trace w' = trace w ++ [CheckpointSave ns is_best best_error bad epoch] /\
  latest (checkpoints w' ns)
  = Some {| snap_epoch := epoch; snap_best_error := best_error;
            snap_bad_epochs := bad; snap_model := m;
            snap_optimizer := o; snap_scheduler := s |}.
Proof.
  unfold save. intros H. invert_run H. invert_atom Hrun.
  inversion H; subst; clear H. cbn [config logs trace checkpoints after].
  repeat split. destruct ns as [k|]; cbn [namespace_eqb]; [rewrite Z.eqb_refl|]; reflexivity.
Qed.

(** What an epoch that runs to its end does: the calls it makes, the
    scalars it logs and the state it leaves. *)
Lemma train_epoch_Ok (t : Trainer C) (epoch : Z) (w : world C) t' stop w' :
  train_epoch t epoch w = Ok (t', stop) w' ->
  exists ps train_error train_error_2 val_loss val_error val_error_2,
    let bs := train_loader t epoch in
    let ls := batch_losses (criterion t) bs ps in
    let train_loss :=
      if agg_sum t then (loss_agg t ls / inject_Z (n_windows t))%Q else loss_agg t ls in
    let mb := update_best (min_val_error t) val_error in
    Forall2 (predicted TrainMode) bs ps /\
    config w' = config w /\ logs w' = logs w /\
    trace w'
    = trace w ++ training_calls (length bs)
        ++ validation_calls (length (val_loader t epoch))
        ++ [SchedulerStep val_error;
            CheckpointSave (model_checkpoint t) (snd mb) (fst mb)
              (num_bad_epochs (early_stopping t)) epoch]
        ++ scalars (config w) (epoch * (Z.of_nat (length bs) - 1))
             train_loss val_loss train_error val_error train_error_2 val_error_2 /\
    same_setup t t' /\
    min_val_error t' = fst mb /\
    (early_stopping t', stop) = step (early_stopping t) val_error.
Proof.
  unfold train_epoch. intros H.
  inv_bind H cfg w1 H1. invert_atom H1.
  inv_bind H u2 w2 H2. invert_atom H2.
  inv_bind H pass w3 H3. destruct pass as [[t1 acc] k].
  apply train_batches_Ok in H3.
  destruct H3 as [Hk [Hst [Hw [ps [Hps [Hl _]]]]]].
  cbn [training criterion with_model train_loader no_accum losses app] in *.
  inv_bind H arrays w4 H4. destruct arrays as [[[preds ys] ws] scales].
  apply concatenate_all_Ok in H4. destruct H4 as [Ew _]. subst w4.
  inv_bind H preds_4 w5 H5. invert_atom H5.
  inv_bind H val w6 H6. destruct val as [t2 [[val_loss val_error] val_error_2]].
  apply get_val_Ok in H6. destruct H6 as [Et2 [Hw6 _]].
  inv_bind H u7 w7 H7. invert_atom H7.
  inv_bind H u8 w8 H8.
  apply save_Ok in H8. destruct H8 as [Hc [Hlg [Htr _]]].
  unfold add_scalar in H.
  inv_bind H u9 w9 H9. invert_atom H9.
  inv_bind H u10 w10 H10. invert_atom H10.
  inv_bind H u11 w11 H11. invert_atom H11.
  inv_bind H u12 w12 H12. invert_atom H12.
  inv_bind H u13 w13 H13. invert_atom H13.
  inv_bind H u14 w14 H14. invert_atom H14.
  invert_atom H. inversion H; subst; clear H.
  destruct (stepped_fields _ _ Hst) as
    [Etr [Ecr [Enw [Esch [Ees [Emin [Est [Emc [Eag [Ela [Eme [Em2 [Etl [Evl [Ewr Eid]]]]]]]]]]]]]]].
  cbn [with_model with_tracking training criterion n_windows scheduler early_stopping
       min_val_error start_epoch model_checkpoint agg_sum loss_agg metric metric_2
       train_loader val_loader writer ids] in *.
  exists ps, (metric t1 preds ys scales ws), (metric_2 t1 preds_4 ys scales ws),
    val_loss, val_error, val_error_2.
  cbv zeta. split; [exact Hps|].
  split; [cbn [after config] in *; congruence|].
  split; [cbn [after logs] in *; congruence|].
  split.
  - cbn [after trace config] in *. rewrite Htr. cbn [after trace].
    rewrite Evl, Emc, Ees, Emin, Eag, Ela, Enw, Hl.
    unfold training_calls, validation_calls, scalars.
    replace (0 + Z.of_nat (length (train_loader t epoch)) - 1)
      with (Z.of_nat (length (train_loader t epoch)) - 1) by lia.
    rewrite <- !app_assoc. cbn [app]. reflexivity.
  - split.
    { unfold same_setup. cbn [with_model with_tracking criterion agg_sum loss_agg metric
        metric_2 train_loader val_loader n_windows start_epoch model_checkpoint writer
        early_stopping].
      rewrite step_patience, Ees. auto 20. }
    cbn [with_model with_tracking min_val_error early_stopping].
    split; [rewrite Emin; reflexivity|].
    rewrite Ees. destruct (step (early_stopping t) val_error); reflexivity.
Qed.

(** ** Epochs that raise *)

Lemma bind_Raise A B (m : Eff A) (k : A -> Eff B) (w : world C) e w' :
  bind m k w = Raise e w' ->
  m w = Raise e w' \/ exists a w1, m w = Ok a w1 /\ k a w1 = Raise e w'.
Proof.
  unfold bind. destruct (m w) as [a w1 | e1 w1]; intros H.
  - right. exists a, w1. auto.
  - left. inversion H. reflexivity.
Qed.

Lemma respects_Ok P A (m : Eff A) (w : world C) a w' :
  respects P m -> m w = Ok a w' -> extends P w w'.
Proof. intros Hm H. specialize (Hm w). rewrite H in Hm. exact Hm. Qed.

Lemma respects_Raise P A (m : Eff A) (w : world C) e w' :
  respects P m -> m w = Raise e w' -> extends P w w'.
Proof. intros Hm H. specialize (Hm w). rewrite H in Hm. exact Hm. Qed.

Ltac respects_step :=
  first
    [ apply respects_ret
    | apply respects_raise
    | apply respects_lift
    | apply respects_getattr
    | apply respects_get_config
    | apply respects_emit; exact I
    | apply respects_bind; [| intros ? ] ].

Lemma train_batch_respects (t : Trainer C) acc b : respects pass_event (train_batch t acc b).
Proof.
  unfold train_batch. repeat respects_step.
  destruct (Config.sliding_window _); [|respects_step].
  destruct (mask_any _); repeat respects_step.
Qed.

Lemma train_batches_respects (bs : list Batch) :
  forall (t : Trainer C) acc k, respects pass_event (train_batches t acc k bs).
Proof.
  induction bs as [|b bs IH]; intros t acc k; cbn [train_batches].
  - respects_step.
  - apply respects_bind; [apply train_batch_respects | intros ta; apply IH].
Qed.

Lemma val_batches_respects (t : Trainer C) (bs : list Batch) :
  forall acc, respects pass_event (val_batches t acc bs).
Proof.
  induction bs as [|b bs IH]; intros acc; cbn [val_batches].
  - respects_step.
  - apply respects_bind; [unfold val_batch; repeat respects_step | intros a; apply IH].
Qed.

Lemma concatenate_all_respects P acc : respects P (concatenate_all acc : Eff _).
Proof.
  unfold concatenate_all.
  repeat (apply respects_bind; [apply respects_lift | intros ?]). apply respects_ret.
Qed.

Lemma get_val_respects (t : Trainer C) epoch :
  respects pass_event (_get_val_loss_and_err t epoch).
Proof.
  unfold _get_val_loss_and_err.
  apply respects_bind; [apply respects_emit; exact I | intros _].
  apply respects_bind; [apply val_batches_respects | intros acc].
  apply respects_bind; [apply concatenate_all_respects | intros [[[preds ys] ws] scales]].
  repeat respects_step.
Qed.

Lemma emit_Raise ev (w : world C) e w' : emit ev w = Raise e w' -> False.
Proof. discriminate. Qed.

Lemma save_Raise ns is_best best_error bad epoch (m : weights C) o s (w : world C) e w' :
  save ns is_best best_error bad epoch m o s w = Raise e w' -> False.
Proof. unfold save, bind, emit. discriminate. Qed.

(** An epoch can raise only during its two passes: no scheduler step, no
    checkpoint and no scalar have been issued by then. *)
Lemma train_epoch_Raise (t : Trainer C) (epoch : Z) (w : world C) e w' :
  train_epoch t epoch w = Raise e w' -> extends pass_event w w'.
Proof.
  unfold train_epoch. intros H.
  apply bind_Raise in H. destruct H as [H | [cfg [w1 [H1 H]]]]; [discriminate|].
  invert_atom H1.
  apply bind_Raise in H. destruct H as [H | [u2 [w2 [H2 H]]]]; [discriminate|].
  assert (X2 : extends pass_event w w2)
    by (eapply respects_Ok; [| exact H2]; apply respects_emit; exact I).
  clear H2.
  apply bind_Raise in H. destruct H as [H | [pass [w3 [H3 H]]]].
  { eapply extends_trans; [exact X2|].
    eapply respects_Raise; [apply train_batches_respects | exact H]. }
  assert (X3 : extends pass_event w w3).
  { eapply extends_trans; [exact X2|].
    eapply respects_Ok; [apply train_batches_respects | exact H3]. }
  clear H3 X2. destruct pass as [[t1 acc] k].
  apply bind_Raise in H. destruct H as [H | [arrays [w4 [H4 H]]]].
  { eapply extends_trans; [exact X3|].
    eapply respects_Raise; [apply concatenate_all_respects | exact H]. }
  assert (X4 : extends pass_event w w4).
  { eapply extends_trans; [exact X3|].
    eapply respects_Ok; [apply concatenate_all_respects | exact H4]. }
  clear H4 X3. destruct arrays as [[[preds ys] ws] scales].
  apply bind_Raise in H. destruct H as [H | [preds_4 [w5 [H5 H]]]].
  { eapply extends_trans; [exact X4|].
    eapply respects_Raise; [apply respects_lift | exact H]. }
  invert_atom H5.
  apply bind_Raise in H. destruct H as [H | [val [w6 [H6 H]]]].
  { eapply extends_trans; [exact X4|].
    eapply respects_Raise; [apply get_val_respects | exact H]. }
  exfalso. destruct val as [t2 [[val_loss val_error] val_error_2]].
  unfold add_scalar in H.
  repeat (apply bind_Raise in H;
          destruct H as [H | [? [? [_ H]]]];
          [first [apply emit_Raise in H; exact H | apply save_Raise in H; exact H]|]).
  discriminate.
Qed.

(** ** Tracking of the best validation error *)

Lemma update_best_spec (best_error : option Q) (prior : list Q) (v : Q) :
  tracks best_error prior ->
  tracks (fst (update_best best_error v)) (prior ++ [v]) /\
  (snd (update_best best_error v) = true <-> forall u, In u prior -> (v < u)%Q).
Proof.
  destruct best_error as [m|]; cbn [tracks update_best].
  - intros [Hin Hmin]. destruct (Qltb v m) eqn:E; cbn [fst snd tracks].
    + apply Qltb_lt in E. split.
      * split; [apply in_or_app; right; simpl; auto|].
        intros u Hu. apply in_app_or in Hu. destruct Hu as [Hu | [Hu | []]].
        -- apply Qlt_le_weak. eapply Qlt_le_trans; [exact E | apply Hmin; exact Hu].
        -- subst u. apply Qle_refl.
      * split; [|reflexivity]. intros _ u Hu.
        eapply Qlt_le_trans; [exact E | apply Hmin; exact Hu].
    + apply Qltb_ge in E. split.
      * split; [apply in_or_app; left; exact Hin|].
        intros u Hu. apply in_app_or in Hu. destruct Hu as [Hu | [Hu | []]].
        -- apply Hmin; exact Hu.
        -- subst u. exact E.
      * split; [discriminate|]. intros H. exfalso.
        exact (Qlt_not_le _ _ (H m Hin) E).
  - intros Hp. subst prior. cbn [fst snd tracks app]. split.
    + split; [simpl; auto|]. intros u [Hu | []]. subst u. apply Qle_refl.
    + split; [intros _ u []|reflexivity].
Qed.

Lemma val_errors_app e1 e2 : val_errors (e1 ++ e2) = val_errors e1 ++ val_errors e2.
Proof. apply flat_map_app. Qed.

Lemma saves_app e1 e2 : saves (e1 ++ e2) = saves e1 ++ saves e2.
Proof. apply flat_map_app. Qed.

Lemma pass_events_silent (evs : list event) :
  Forall pass_event evs -> val_errors evs = [] /\ saves evs = [].
Proof.
  induction 1 as [|ev evs Hev _ [IH1 IH2]]; [split; reflexivity|].
  unfold val_errors, saves in *. cbn [flat_map]. rewrite IH1, IH2.
  destruct ev; try contradiction; split; reflexivity.
Qed.

Lemma training_calls_pass n : Forall pass_event (training_calls n).
Proof.
  unfold training_calls. constructor; [exact I|].
  induction n; cbn [repeat concat]; [constructor|].
  unfold batch_calls at 1. repeat (constructor; [exact I|]). exact IHn.
Qed.

Lemma validation_calls_pass n : Forall pass_event (validation_calls n).
Proof.
  unfold validation_calls. constructor; [exact I|].
  induction n; cbn [repeat]; constructor; [exact I | assumption].
Qed.

Lemma best_marked_silent prior evs :
  Forall pass_event evs -> best_marked prior evs.
Proof.
  intros H. apply pass_events_silent in H. destruct H as [H1 H2].
  unfold best_marked. rewrite H1, H2. split; [reflexivity|].
  intros [|n] v b m; discriminate.
Qed.

(** The events of an epoch that runs to its end, seen through [val_errors]
    and [saves]. *)
Lemma epoch_events_best (evs pre : list event) (post : list event)
    ns (v : Q) (b : bool) (m : option Q) bad epoch :
  evs = pre ++ [SchedulerStep v; CheckpointSave ns b m bad epoch] ++ post ->
  Forall pass_event pre ->
  (forall ev, In ev post -> exists tag value st, ev = AddScalar tag value st) ->
  val_errors evs = [v] /\ saves evs = [(b, m)].
Proof.
  intros -> Hpre Hpost.
  rewrite !val_errors_app, !saves_app.
  destruct (pass_events_silent _ Hpre) as [-> ->].
  assert (val_errors post = [] /\ saves post = []) as [-> ->].
  { clear - Hpost. induction post as [|ev post IH]; [split; reflexivity|].
    destruct IH as [IH1 IH2]; [intros; apply Hpost; simpl; auto|].
    destruct (Hpost ev (or_introl eq_refl)) as [tag [value [st ->]]].
    unfold val_errors, saves in *. cbn [flat_map]. rewrite IH1, IH2. split; reflexivity. }
  split; reflexivity.
Qed.

Lemma best_marked_cons prior (v : Q) (b : bool) (m : option Q) (e1 e2 : list event) :
  val_errors e1 = [v] -> saves e1 = [(b, m)] ->
  tracks m (prior ++ [v]) ->
  (b = true <-> forall u, In u prior -> (v < u)%Q) ->
  best_marked (prior ++ [v]) e2 ->
  best_marked prior (e1 ++ e2).
Proof.
  intros Hv Hs Hm Hb [Hlen Hrest]. unfold best_marked.
  rewrite val_errors_app, saves_app, Hv, Hs. cbn [app length]. split; [congruence|].
  intros [|n] v' b' m' H1 H2.
  - cbn [nth_error firstn] in *. inversion H1; inversion H2; subst.
    rewrite app_nil_r. auto.
  - cbn [nth_error] in H1, H2. destruct (Hrest n v' b' m' H1 H2) as [Ht Hiff].
    cbn [firstn]. rewrite <- app_assoc in Ht, Hiff. cbn [app] in Ht, Hiff. auto.
Qed.

Lemma scalars_are_scalars cfg st a b c d e f ev :
  In ev (scalars cfg st a b c d e f) -> exists tag value st', ev = AddScalar tag value st'.
Proof.
  unfold scalars. cbn [In].
  intros [H | [H | [H | [H | [H | [H | []]]]]]]; subst ev; eauto.
Qed.

Lemma epoch_loop_best (epochs : list Z) :
  forall (t : Trainer C) (w : world C) (prior : list Q),
  tracks (min_val_error t) prior ->
  exists evs,
    trace (final (epoch_loop t epochs w)) = trace w ++ evs /\
    best_marked prior evs /\
    Forall (fun ev => ev <> WriterClose) evs /\
    forall t' w', epoch_loop t epochs w = Ok t' w' ->
                  tracks (min_val_error t') (prior ++ val_errors evs).
Proof.
  induction epochs as [|epoch rest IH]; intros t w prior Htr.
  - exists []. cbn [epoch_loop ret final]. rewrite !app_nil_r.
    split; [reflexivity|]. split; [apply best_marked_silent; constructor|].
    split; [constructor|].
    intros t' w' H. inversion H; subst. exact Htr.
  - cbn [epoch_loop]. unfold bind at 1.
    destruct (train_epoch t epoch w) as [[t1 stop] w1 | e w1] eqn:E.
    + pose proof E as E0. apply train_epoch_Ok in E.
      destruct E as [ps [te [te2 [vl [ve [ve2 E]]]]]]. cbv zeta in E.
      destruct E as [_ [_ [_ [Etr [_ [Emin _]]]]]].
      destruct (update_best_spec (min_val_error t) prior ve Htr) as [Hm Hb].
      remember (training_calls (length (train_loader t epoch))
                ++ validation_calls (length (val_loader t epoch))) as pre eqn:Epre.
      assert (Hpre : Forall pass_event pre).
      { subst pre. apply Forall_app. split;
          [apply training_calls_pass | apply validation_calls_pass]. }
      rewrite (app_assoc (training_calls _) (validation_calls _)) in Etr.
      rewrite <- Epre in Etr.
      match type of Etr with
      | trace w1 = trace w ++ ?evs =>
          remember evs as e1 eqn:Ee1;
          destruct (epoch_events_best e1 pre _ _ _ _ _ _ _ Ee1 Hpre
                      (scalars_are_scalars _ _ _ _ _ _ _ _)) as [Hv Hs]
      end.
      assert (Hnc : Forall (fun ev => ev <> WriterClose) e1).
      { subst e1. apply Forall_app. split.
        - eapply Forall_impl; [|exact Hpre]. intros ev Hev ->. exact Hev.
        - apply Forall_forall. intros ev [H | [H | H]]; try (subst ev; discriminate).
          apply scalars_are_scalars in H. destruct H as [? [? [? ->]]]. discriminate. }
      cbn [fst snd]. destruct stop.
      * exists e1. cbn [ret final]. split; [exact Etr|].
        split.
        { rewrite <- (app_nil_r e1). eapply best_marked_cons; eauto.
          apply best_marked_silent. constructor. }
        split; [exact Hnc|].
        intros t' w' H. unfold bind in H. rewrite E0 in H. cbn [fst snd] in H.
        apply ret_Ok in H. destruct H; subst.
        rewrite Hv, Emin. exact Hm.
      * rewrite <- Emin in Hm.
        destruct (IH t1 w1 (prior ++ [ve]) Hm) as [e2 [Htr2 [Hbm [Hnc2 Hfin]]]].
        exists (e1 ++ e2). split; [rewrite Htr2, Etr, app_assoc; reflexivity|].
        split; [rewrite Emin in Hm; eapply best_marked_cons; eauto|].
        split; [apply Forall_app; auto|].
        intros t' w' H. unfold bind in H. rewrite E0 in H. cbn [fst snd] in H.
        rewrite val_errors_app, Hv, app_assoc. eapply Hfin. exact H.
    + pose proof E as E0. apply train_epoch_Raise in E. destruct E as [_ [evs [Ht Hf]]].
      exists evs. cbn [final]. split; [exact Ht|].
      split; [apply best_marked_silent; exact Hf|].
      split; [eapply Forall_impl; [|exact Hf]; intros ev Hev ->; exact Hev|].
      intros t' w' H. unfold bind in H. rewrite E0 in H. discriminate.
Qed.

Lemma train_unfold (t : Trainer C) (w : world C) :
  train t w
  = match epoch_loop t (range (start_epoch t) (Config.num_epochs (config w) + 1)) w with
    | Ok t1 w1 => Ok t1 (after w1 [WriterClose])
    | Raise e w1 => Raise e w1
    end.
Proof. reflexivity. Qed.

(** C1 (best-model tracking).  Take a trainer whose best error is the
    minimum of the validation errors [prior] observed before this run of the
    epoch loop (none, with the best error unset, for a run that is not
    resumed).  Whether [train] returns or raises, it saves one checkpoint per
    completed epoch; the best error saved after the [n]-th epoch is the
    minimum of all validation errors observed up to that epoch, and the
    checkpoint is marked best exactly when the error of the epoch is
    strictly lower than every error observed before it, which holds for
    the first error ever observed.  When [train] returns, the best error of
    the trainer is the minimum of all observed errors. *)
Theorem best_validation_error_tracked (t : Trainer C) (w : world C) (prior : list Q) :
  tracks (min_val_error t) prior ->
  exists evs,
    trace (final (train t w)) = trace w ++ evs /\
    best_marked prior evs /\
    forall t' w', train t w = Ok t' w' ->
                  tracks (min_val_error t') (prior ++ val_errors evs).
Proof.
  intros Htr. rewrite train_unfold.
  destruct (epoch_loop_best (range (start_epoch t) (Config.num_epochs (config w) + 1))
              t w prior Htr) as [evs [Ht [Hbm [_ Hfin]]]].
  destruct (epoch_loop t _ w) as [t1 w1 | e w1] eqn:E; cbn [final] in *.
  - exists (evs ++ [WriterClose]). cbn [after trace].
    split; [rewrite Ht, app_assoc; reflexivity|].
    assert (Hv : val_errors (evs ++ [WriterClose]) = val_errors evs)
      by (rewrite val_errors_app; apply app_nil_r).
    assert (Hs : saves (evs ++ [WriterClose]) = saves evs)
      by (rewrite saves_app; apply app_nil_r).
    split.
    + unfold best_marked in *. rewrite Hv, Hs. exact Hbm.
    + intros t' w' H. inversion H; subst. rewrite Hv. eapply Hfin. reflexivity.
  - exists evs. split; [exact Ht|]. split; [exact Hbm|]. intros t' w' H. discriminate.
Qed.

(** ** Construction *)

Lemma only_logs_refl (w : world C) : only_logs w w.
Proof. repeat split. Qed.

Lemma only_logs_trans (w1 w2 w3 : world C) :
  only_logs w1 w2 -> only_logs w2 w3 -> only_logs w1 w3.
Proof.
  intros [H1 [H2 H3]] [H1' [H2' H3']]. repeat split; congruence.
Qed.

Lemma fs_call_only_logs f path name (w : world C) :
  only_logs w (final (fs_call f path name w)).
Proof.
  unfold fs_call. destruct (at_entry f path name (logs w)); cbn [final];
    repeat split.
Qed.

Lemma remove_logs_only_logs (names : list string) :
  forall w : world C, only_logs w (final (remove_logs names w)).
Proof.
  induction names as [|f rest IH]; intros w; cbn [remove_logs].
  - apply only_logs_refl.
  - unfold bind, try_except.
    pose proof (fs_call_only_logs unlink [] f w) as H1. unfold os_remove.
    destruct (fs_call unlink [] f w) as [u w1 | e w1]; cbn [final] in H1.
    + eapply only_logs_trans; [exact H1 | apply IH].
    + destruct (is_IsADirectoryError e); [|exact H1].
      pose proof (fs_call_only_logs rmtree [] f w1) as H2. unfold shutil_rmtree.
      destruct (fs_call rmtree [] f w1) as [u w2 | e2 w2]; cbn [final] in H2.
      * eapply only_logs_trans; [exact H1|].
        eapply only_logs_trans; [exact H2 | apply IH].
      * eapply only_logs_trans; eassumption.
Qed.

Lemma remove_fold_logs_only_logs dir (names : list string) :
  forall w : world C, only_logs w (final (remove_fold_logs dir names w)).
Proof.
  induction names as [|f rest IH]; intros w; cbn [remove_fold_logs].
  - apply only_logs_refl.
  - unfold bind.
    pose proof (fs_call_only_logs unlink [dir] f w) as H1. unfold os_remove.
    destruct (fs_call unlink [dir] f w) as [u w1 | e w1]; cbn [final] in H1.
    + eapply only_logs_trans; [exact H1 | apply IH].
    + exact H1.
Qed.

Lemma sum_style_prefix (s : string) :
  String.eqb (substring 0 3 s) "SPL" = String.prefix "SPL" s.
Proof.
  destruct s as [|c1 [|c2 [|c3 s]]]; cbn [substring String.prefix String.eqb].
  - reflexivity.
  - destruct (Ascii.eqb_spec c1 "S"%char); destruct (Ascii.ascii_dec "S"%char c1);
      try reflexivity; congruence.
  - destruct (Ascii.eqb_spec c1 "S"%char); destruct (Ascii.ascii_dec "S"%char c1);
      try reflexivity; try congruence.
    destruct (Ascii.eqb_spec c2 "P"%char); destruct (Ascii.ascii_dec "P"%char c2);
      try reflexivity; congruence.
  - destruct (Ascii.eqb_spec c1 "S"%char); destruct (Ascii.ascii_dec "S"%char c1);
      try reflexivity; try congruence.
    destruct (Ascii.eqb_spec c2 "P"%char); destruct (Ascii.ascii_dec "P"%char c2);
      try reflexivity; try congruence.
    destruct (Ascii.eqb_spec c3 "L"%char); destruct (Ascii.ascii_dec "L"%char c3);
      try reflexivity; try congruence.
    destruct s; reflexivity.
Qed.

Lemma getattr_Ok A (r : option A) e (w : world C) a w' :
  getattr r e w = Ok a w' -> r = Some a /\ w' = w.
Proof.
  destruct r; simpl; unfold raise, ret; intros H; inversion H; auto.
Qed.

Lemma load_Ok ns (m : weights C) o s (w : world C) r w' :
  load ns m o s w = Ok r w' ->
  exists snap,
    latest (checkpoints w ns) = Some snap /\
    r = (snap_model snap, snap_optimizer snap, snap_scheduler snap,
         (snap_epoch snap + 1, snap_best_error snap, snap_bad_epochs snap)) /\
    w' = after w [CheckpointLoad ns].
Proof.
  unfold load. intros H. inv_bind H u w1 H1. invert_atom H1.
  cbn [after checkpoints] in H.
  destruct (latest (checkpoints w ns)) as [snap|]; [|discriminate].
  inversion H; subst. exists snap. auto.
Qed.

(** What [Trainer(config)] returns. *)
Lemma Trainer_init_Ok (w : world C) (t : Trainer C) (w' : world C) :
  Trainer_init w = Ok t w' ->
  let cfg := config w in
  let ns := Config.fold cfg in
  aggregates cfg t /\
  n_windows t = dl_n_windows (DataLoader C cfg) /\
  train_loader t = create_train_loader (DataLoader C cfg) /\
  val_loader t = create_val_loader (DataLoader C cfg) /\
  model_checkpoint t = ns /\ writer t = ns /\
  patience (early_stopping t) = 10 /\
  config w' = cfg /\ checkpoints w' = checkpoints w /\
  (Config.resume_training cfg = false ->
     start_epoch t = 1 /\ min_val_error t = None /\
     early_stopping t = EarlyStopping_init 10 /\
     trace w' = trace w ++ [SummaryWriter ns; TrainerCreated ns false 1]) /\
  (Config.resume_training cfg = true ->
     exists snap,
       latest (checkpoints w ns) = Some snap /\
       model t = snap_model snap /\
       optimizer t = snap_optimizer snap /\
       scheduler t = snap_scheduler snap /\
       start_epoch t = snap_epoch snap + 1 /\
       min_val_error t = snap_best_error snap /\
       best (early_stopping t) = snap_best_error snap /\
       num_bad_epochs (early_stopping t) = snap_bad_epochs snap /\
       logs w' = logs w /\
       trace w'
       = trace w ++ [CheckpointLoad ns; SummaryWriter ns;
                     TrainerCreated ns true (snap_epoch snap + 1)]).
Proof.
  unfold Trainer_init. intros H.
  inv_bind H cfg w1 H1. invert_atom H1.
  inv_bind H create w2 H2. apply getattr_Ok in H2. destruct H2 as [_ ->].
  inv_bind H loss_class w3 H3. apply getattr_Ok in H3. destruct H3 as [_ ->].
  inv_bind H m1 w4 H4. apply getattr_Ok in H4. destruct H4 as [_ ->].
  inv_bind H m2 w5 H5. apply getattr_Ok in H5. destruct H5 as [_ ->].
  inv_bind H t1 w6 H6.
  inv_bind H u7 w7 H7. invert_atom H7.
  inv_bind H u8 w8 H8. invert_atom H8.
  invert_atom H. subst t. cbv zeta.
  destruct (Config.resume_training (config w)) eqn:Hres.
  - inv_bind H6 loaded w9 H9. apply load_Ok in H9.
    destruct H9 as [snap [Hsnap [-> ->]]]. invert_atom H6. subst t1.
    cbn [model_checkpoint] in Hsnap.
    cbn [with_tracking with_model agg_sum loss_agg n_windows train_loader val_loader
         model_checkpoint writer early_stopping patience EarlyStopping_init
         start_epoch min_val_error model optimizer scheduler best num_bad_epochs
         after config checkpoints logs trace].
    split; [split; [apply sum_style_prefix | reflexivity]|].
    repeat (split; [reflexivity|]).
    split; [discriminate|]. intros _. exists snap.
    rewrite <- !app_assoc. cbn [app]. auto 20.
  - inv_bind H6 lg w9 H9. unfold get_logs in H9. inversion H9; subst lg w9; clear H9.
    inv_bind H6 u10 w10 H10. invert_atom H6. subst t1.
    assert (Hol : only_logs w w10).
    { destruct (Config.fold (config w)) as [k|].
      - pose proof (remove_fold_logs_only_logs (fold_dir k)
                      (glob_logs [fold_dir k] (logs w)) w) as X.
        rewrite H10 in X. exact X.
      - pose proof (remove_logs_only_logs (glob_logs [] (logs w)) w) as X.
        rewrite H10 in X. exact X. }
    destruct Hol as [Hc [Hck Htr]].
    cbn [agg_sum loss_agg n_windows train_loader val_loader
         model_checkpoint writer early_stopping patience EarlyStopping_init
         start_epoch min_val_error after config checkpoints logs trace].
    split; [split; [apply sum_style_prefix | reflexivity]|].
    repeat (split; [reflexivity|]).
    split; [exact Hc|]. split; [exact Hck|].
    split; [|discriminate]. intros _.
    rewrite Htr, <- !app_assoc. cbn [app]. auto.
Qed.

(** ** Sliding-window filtering *)

(** C2 (sliding-window filtering).  Let the training pass over the batches
    [bs] run to its end.  It makes one forward pass, one backward pass and
    one optimizer step per batch, and the loss appended for a batch is the
    criterion applied to the whole batch, every sample included.  In
    sliding-window mode the predictions, targets, weights and scales
    appended hold exactly the entries of the samples whose window index is
    [n_windows - 1], batch after batch; with the mode disabled, the arrays
    of every batch are appended whole. *)
Theorem sliding_window_filtering (t : Trainer C) (bs : list Batch) (w : world C)
    t' acc k w' :
  train_batches t no_accum 0 bs w = Ok (t', acc, k) w' ->
  exists ps,
    Forall2 (predicted (training t)) bs ps /\
    trace w' = trace w ++ concat (repeat (batch_calls (training t)) (length bs)) /\
    losses acc = batch_losses (criterion t) bs ps /\
    (Config.sliding_window (config w) = true ->
       entries (epoch_preds acc)
       = last_window_entries (n_windows t) (fun _ p => p) bs ps /\
       entries (epoch_ys acc)
       = last_window_entries (n_windows t) (fun b _ => y b) bs ps /\
       entries (epoch_ws acc)
       = last_window_entries (n_windows t) (fun b _ => weight b) bs ps /\
       entries (epoch_scales acc)
       = last_window_entries (n_windows t) (fun b _ => scale b) bs ps) /\
    (Config.sliding_window (config w) = false ->
       epoch_preds acc = ps /\ epoch_ys acc = map y bs /\
       epoch_ws acc = map weight bs /\ epoch_scales acc = map scale bs).
Proof.
  intros H. apply train_batches_Ok in H.
  destruct H as [_ [_ [Hw [ps [Hps [Hl [Hns Hs]]]]]]].
  exists ps. split; [exact Hps|]. split; [subst w'; reflexivity|].
  split; [exact Hl|]. split; [exact Hs | exact Hns].
Qed.

(** ** Aggregation of the training loss *)

Lemma aggregates_loss cfg (t : Trainer C) (ls : list Q) :
  aggregates cfg t ->
  (if agg_sum t then (loss_agg t ls / inject_Z (n_windows t))%Q else loss_agg t ls)
  = reported_loss (Config.loss_fn cfg) (n_windows t) ls.
Proof.
  intros [Ha Hl]. unfold reported_loss. rewrite Hl, <- Ha.
  destruct (agg_sum t); reflexivity.
Qed.

(** C3 (reported training loss).  [Trainer(config)] sets up the aggregation
    of the losses for the configured loss name, and an epoch keeps it.  The
    training loss that an epoch logs is then the mean of the per-batch
    losses when the name of the loss does not start with [SPL], and their
    sum divided by [n_windows] when it does.  For the per-batch losses 4
    and 6 and two windows, both are 5. *)
Theorem reported_training_loss :
  (forall (w0 : world C) t w1,
      Trainer_init w0 = Ok t w1 -> aggregates (config w1) t) /\
  (forall (t : Trainer C) epoch (w : world C) t' stop w',
      aggregates (config w) t ->
      train_epoch t epoch w = Ok (t', stop) w' ->
      aggregates (config w') t' /\
      exists ps pre val_loss train_error val_error train_error_2 val_error_2,
        Forall2 (predicted TrainMode) (train_loader t epoch) ps /\
        trace w'
        = trace w ++ pre
          ++ scalars (config w)
               (epoch * (Z.of_nat (length (train_loader t epoch)) - 1))
               (reported_loss (Config.loss_fn (config w)) (n_windows t)
                  (batch_losses (criterion t) (train_loader t epoch) ps))
               val_loss train_error val_error train_error_2 val_error_2) /\
  (reported_loss "SPL_sum" 2 [4; 6] == 5)%Q /\
  (reported_loss "MSE" 2 [4; 6] == 5)%Q.
Proof.
  split; [|split; [|split; reflexivity]].
  - intros w0 t w1 H. apply Trainer_init_Ok in H. cbv zeta in H.
    destruct H as [Ha [_ [_ [_ [_ [_ [_ [Hc _]]]]]]]]. rewrite Hc. exact Ha.
  - intros t epoch w t' stop w' Hagg H. apply train_epoch_Ok in H.
    destruct H as [ps [te [te2 [vl [ve [ve2 H]]]]]]. cbv zeta in H.
    destruct H as [Hps [Hc [_ [Htr [Hsame _]]]]].
    split.
    + destruct Hagg as [Ha Hl]. destruct Hsame as [_ [Ea [El _]]].
      unfold aggregates. rewrite Hc, Ea, El. auto.
    + exists ps.
      exists (training_calls (length (train_loader t epoch))
              ++ validation_calls (length (val_loader t epoch))
              ++ [SchedulerStep ve;
                  CheckpointSave (model_checkpoint t)
                    (snd (update_best (min_val_error t) ve))
                    (fst (update_best (min_val_error t) ve))
                    (num_bad_epochs (early_stopping t)) epoch]).
      exists vl, te, ve, te2, ve2. split; [exact Hps|].
      rewrite Htr, (aggregates_loss _ _ _ Hagg).
      rewrite <- !app_assoc. reflexivity.
Qed.

(** ** Early termination of the epoch loop *)

(** C5 (halting on the early-stopping signal).  Let the epoch loop run the
    epochs [done] without a stop signal and let the monitor signal
    termination at the end of the next epoch.  Then the loop returns the
    state left by that epoch, whatever epochs [later] remain, and [train]
    only closes the writer afterwards: no call of any later epoch (forward
    pass, optimizer step, checkpoint, scalar) is made. *)
Theorem early_stop_halts (t : Trainer C) (w : world C) (done later : list Z) (epoch : Z)
    t1 w1 t2 w2 :
  runs_on t w done t1 w1 ->
  train_epoch t1 epoch w1 = Ok (t2, true) w2 ->
  epoch_loop t (done ++ epoch :: later) w = Ok t2 w2 /\
  (range (start_epoch t) (Config.num_epochs (config w) + 1) = done ++ epoch :: later ->
   train t w = Ok t2 (after w2 [WriterClose])).
Proof.
  intros Hruns Hstop.
  assert (Hloop : epoch_loop t (done ++ epoch :: later) w = Ok t2 w2).
  { induction Hruns as [t w | t w e rest t' w' t1 w1 He _ IH].
    - cbn [app epoch_loop]. unfold bind. rewrite Hstop. reflexivity.
    - cbn [app epoch_loop]. unfold bind. rewrite He. cbn [fst snd]. apply IH. exact Hstop. }
  split; [exact Hloop|].
  intros Hrange. rewrite train_unfold, Hrange, Hloop. reflexivity.
Qed.

(** ** The validation pass *)

(** C6 (validation pass).  A validation pass that runs to its end leaves
    the weights, the gradients, the optimizer and the scheduler as they
    were and the model in evaluation mode; it only switches the mode and
    makes one forward pass per batch, in evaluation mode, so no gradient is
    reset, no backward pass is made and no optimizer step is taken.  The
    predictions and losses are computed by the functions used in training
    ([prediction], [batch_loss]), and the errors are computed over every
    sample of every batch. *)
Theorem validation_pass (t : Trainer C) (epoch : Z) (w : world C)
    t' val_loss val_error val_error_2 w' :
  _get_val_loss_and_err t epoch w = Ok (t', (val_loss, val_error, val_error_2)) w' ->
  let bs := val_loader t epoch in
  (model t' = model t /\ grad t' = grad t /\ optimizer t' = optimizer t /\
   scheduler t' = scheduler t /\ training t' = EvalMode) /\
  (config w' = config w /\ checkpoints w' = checkpoints w /\ logs w' = logs w /\
   trace w' = trace w ++ ModelEval :: repeat (Forward EvalMode) (length bs)) /\
  exists ps preds_4,
    Forall2 (fun b p => prediction EvalMode (model t) b = inr p) bs ps /\
    channel_4 (concat ps) = inr preds_4 /\
    val_loss = loss_agg t (batch_losses (criterion t) bs ps) /\
    val_error
    = metric t (concat ps) (flat_map y bs) (flat_map scale bs) (flat_map weight bs) /\
    val_error_2
    = metric_2 t preds_4 (flat_map y bs) (flat_map scale bs) (flat_map weight bs).
Proof.
  intros H. apply get_val_Ok in H. cbv zeta in *.
  destruct H as [Et [Ew Hrest]]. subst t' w'.
  split; [repeat split|]. split; [repeat split|]. exact Hrest.
Qed.

(** ** Resumption from a checkpoint *)

Lemma save_returns ns is_best best_error bad epoch (m : weights C) o s (w : world C) :
  exists w', save ns is_best best_error bad epoch m o s w = Ok tt w'.
Proof. unfold save, bind, emit. eexists. reflexivity. Qed.

(** C8 (resumption; the checkpoint manager is modelled from the
    specification).  Take the world left by a [save] at epoch [E] into the
    namespace of the configured fold.  There, [load] returns the saved
    model, optimizer and scheduler with the triple of the epoch [E + 1], the
    saved best error and the saved count of bad epochs.  If resumption is
    requested and [Trainer(config)] returns, the trainer holds the saved
    model, optimizer and scheduler, starts at epoch [E + 1], has the saved
    best error as its best error, and its early-stopping monitor holds the
    saved best error and the saved count of bad epochs. *)
Theorem resume_restores (w0 : world C) is_best best_error bad E
    (m : weights C) o s (t : Trainer C) (w' : world C) :
  let ns := Config.fold (config w0) in
  let w := final (save ns is_best best_error bad E m o s w0) in
  Config.resume_training (config w0) = true ->
  Trainer_init w = Ok t w' ->
  (forall m0 o0 s0,
      load ns m0 o0 s0 w
      = Ok (m, o, s, (E + 1, best_error, bad)) (after w [CheckpointLoad ns])) /\
  model t = m /\ optimizer t = o /\ scheduler t = s /\
  start_epoch t = E + 1 /\ min_val_error t = best_error /\
  best (early_stopping t) = best_error /\
  num_bad_epochs (early_stopping t) = bad.
Proof.
  intros ns w Hres Hinit.
  destruct (save_returns ns is_best best_error bad E m o s w0) as [w1 Hsave].
  assert (Ew : w = w1) by (unfold w; rewrite Hsave; reflexivity).
  pose proof (save_Ok _ _ _ _ _ _ _ _ _ _ _ Hsave) as [Hc [_ [_ Hlatest]]].
  rewrite <- Ew in Hc, Hlatest.
  split.
  - intros m0 o0 s0. unfold load, bind, emit. cbn [checkpoints].
    rewrite Hlatest. reflexivity.
  - apply Trainer_init_Ok in Hinit. cbv zeta in Hinit.
    destruct Hinit as [_ [_ [_ [_ [_ [_ [_ [_ [_ [_ Hr]]]]]]]]]].
    rewrite Hc in Hr. destruct (Hr Hres) as [snap [Hs [Hm [Ho [Hsc [Hst [Hmin [Hb [Hn _]]]]]]]]].
    fold ns in Hs. rewrite Hlatest in Hs. inversion Hs; subst snap.
    cbn [snap_model snap_optimizer snap_scheduler snap_epoch snap_best_error
         snap_bad_epochs] in *.
    auto 10.
Qed.

(** ** Cleanup of the logs *)

Lemma lookup_entry_in (name : string) (d : directory) :
  In name (map fst d) -> exists node, lookup_entry name d = Some node.
Proof.
  induction d as [|[n node] d IH]; [intros []|].
  cbn [map fst In lookup_entry]. intros H.
  destruct (String.eqb_spec n name) as [E | E]; [eauto|].
  destruct H as [H | H]; [contradiction|]. apply IH. exact H.
Qed.

Lemma remove_entry_names (name : string) (d : directory) node :
  lookup_entry name d = Some node ->
  Permutation (map fst d) (name :: map fst (remove_entry name d)).
Proof.
  induction d as [|[n nd'] d IH]; [discriminate|].
  cbn [lookup_entry remove_entry map fst].
  destruct (String.eqb_spec n name) as [E | E].
  - intros _. subst n. apply Permutation_refl.
  - intros H. cbn [map fst].
    eapply perm_trans;
      [apply perm_skip; apply IH; exact H | apply perm_swap].
Qed.

Lemma glob_names (d : directory) :
  Permutation (glob_logs [] d) (map fst d).
Proof.
  unfold glob_logs. cbn [subdirectory].
  induction d as [|[n node] d IH]; [constructor|].
  cbn [filter fst map]. destruct (hidden n); cbn [negb map fst app].
  - apply perm_skip. exact IH.
  - eapply perm_trans;
      [apply Permutation_sym; apply Permutation_middle|].
    apply perm_skip. exact IH.
Qed.

(** Without a fold, removing the listed entries of a log directory never
    raises, whatever files and directories it holds, and leaves it empty. *)
Lemma remove_logs_empties (names : list string) :
  forall w : world C,
  Permutation names (map fst (logs w)) ->
  exists w', remove_logs names w = Ok tt w' /\ logs w' = [] /\ only_logs w w'.
Proof.
  induction names as [|f rest IH]; intros w Hp.
  - exists w. cbn [remove_logs ret]. split; [reflexivity|].
    split; [|apply only_logs_refl].
    apply Permutation_nil in Hp. destruct (logs w); [reflexivity | discriminate].
  - assert (Hin : In f (map fst (logs w))).
    { eapply Permutation_in; [exact Hp | simpl; auto]. }
    destruct (lookup_entry_in _ _ Hin) as [node Hl].
    pose proof (remove_entry_names _ _ _ Hl) as Hr.
    set (w1 := {| config := config w; checkpoints := checkpoints w;
                  logs := remove_entry f (logs w); trace := trace w |}).
    assert (Hstep : try_except (os_remove [] f) is_IsADirectoryError
                      (shutil_rmtree [] f) w = Ok tt w1).
    { unfold try_except, os_remove, shutil_rmtree, fs_call. cbn [at_entry].
      unfold unlink, rmtree. rewrite Hl. destruct node as [|entries].
      - reflexivity.
      - cbn [is_IsADirectoryError]. cbn [at_entry]. rewrite Hl. reflexivity. }
    destruct (IH w1) as [w' [Hrun [Hempty Hol]]].
    { cbn [logs w1]. eapply Permutation_cons_inv.
      eapply perm_trans; [exact Hp | exact Hr]. }
    exists w'. cbn [remove_logs]. unfold bind. rewrite Hstep.
    split; [exact Hrun|]. split; [exact Hempty|].
    eapply only_logs_trans; [|exact Hol]. repeat split.
Qed.

Lemma lookup_replace_entry (name : string) (node node' : fsnode) (d : directory) :
  lookup_entry name d = Some node ->
  lookup_entry name (replace_entry name node' d) = Some node'.
Proof.
  induction d as [|[n nd'] d IH]; [discriminate|].
  cbn [lookup_entry replace_entry].
  destruct (String.eqb_spec n name) as [E | E]; intros H.
  - cbn [lookup_entry]. subst n. rewrite String.eqb_refl. reflexivity.
  - cbn [lookup_entry]. destruct (String.eqb_spec n name); [contradiction|].
    apply IH. exact H.
Qed.

(** With a fold, the first directory among the entries of the log
    directory of the fold makes the cleanup raise [IsADirectoryError]: the
    files listed before it are removed, the directory and what follows it
    are left. *)
Lemma remove_fold_logs_raises (dir : string) (files : list string) (name : string)
    (rest : list string) entries :
  forall (w : world C) (others : directory),
  lookup_entry dir (logs w)
  = Some (Dir (map (fun f => (f, File)) files ++ (name, Dir entries) :: others)) ->
  exists w',
    remove_fold_logs dir (files ++ name :: rest) w = Raise IsADirectoryError w' /\
    lookup_entry dir (logs w') = Some (Dir ((name, Dir entries) :: others)).
Proof.
  induction files as [|f files IH]; intros w others Hd.
  - cbn [app remove_fold_logs]. unfold bind, os_remove, fs_call. cbn [at_entry].
    rewrite Hd. cbn [map app]. unfold unlink. cbn [lookup_entry].
    rewrite String.eqb_refl. exists w. split; [reflexivity | exact Hd].
  - cbn [app remove_fold_logs]. unfold bind at 1. unfold os_remove, fs_call.
    cbn [at_entry]. rewrite Hd. cbn [map app]. unfold unlink.
    cbn [lookup_entry remove_entry]. rewrite String.eqb_refl.
    apply IH. cbn [logs]. eapply lookup_replace_entry. exact Hd.
Qed.

(** ** The k-fold driver *)

Lemma pass_event_training ev : pass_event ev -> training_event ev.
Proof. destruct ev; simpl; auto. Qed.

Lemma save_respects ns is_best best_error bad epoch (m : weights C) o s :
  respects training_event (save ns is_best best_error bad epoch m o s).
Proof.
  unfold save. apply respects_bind; [apply respects_emit; exact I|].
  intros _ w. cbn [final]. split; [reflexivity|]. exists [].
  cbn [trace]. rewrite app_nil_r. auto.
Qed.

Lemma train_epoch_respects (t : Trainer C) epoch :
  respects training_event (train_epoch t epoch).
Proof.
  unfold train_epoch.
  apply respects_bind; [apply respects_get_config | intros cfg].
  apply respects_bind; [apply respects_emit; exact I | intros _].
  apply respects_bind;
    [eapply respects_weaken; [apply pass_event_training | apply train_batches_respects]|].
  intros [[t1 acc] k].
  apply respects_bind; [apply concatenate_all_respects | intros [[[preds ys] ws] scales]].
  apply respects_bind; [apply respects_lift | intros preds_4].
  apply respects_bind;
    [eapply respects_weaken; [apply pass_event_training | apply get_val_respects]|].
  intros [t2 [[val_loss val_error] val_error_2]].
  apply respects_bind; [apply respects_emit; exact I | intros _].
  apply respects_bind; [apply save_respects | intros _].
  unfold add_scalar.
  repeat (apply respects_bind; [apply respects_emit; exact I | intros _]).
  apply respects_ret.
Qed.

Lemma epoch_loop_respects (epochs : list Z) :
  forall t : Trainer C, respects training_event (epoch_loop t epochs).
Proof.
  induction epochs as [|epoch rest IH]; intros t; cbn [epoch_loop].
  - apply respects_ret.
  - apply respects_bind; [apply train_epoch_respects | intros [t1 stop]].
    cbn [fst snd]. destruct stop; [apply respects_ret | apply IH].
Qed.

Lemma train_respects (t : Trainer C) : respects training_event (train t).
Proof.
  unfold train.
  apply respects_bind; [apply respects_get_config | intros cfg].
  apply respects_bind; [apply epoch_loop_respects | intros t1].
  apply respects_bind; [apply respects_emit; exact I | intros _].
  apply respects_ret.
Qed.

Lemma created_app e1 e2 : created (e1 ++ e2) = created e1 ++ created e2.
Proof. apply flat_map_app. Qed.

Lemma created_training (evs : list event) :
  Forall training_event evs -> created evs = [].
Proof.
  induction 1 as [|ev evs Hev _ IH]; [reflexivity|].
  unfold created in *. cbn [flat_map]. rewrite IH.
  destruct ev; try reflexivity. contradiction.
Qed.

Lemma range_cons (a b : Z) : a < b -> range a b = a :: range (a + 1) b.
Proof.
  intros H. unfold range.
  replace (Z.to_nat (b - a)) with (S (Z.to_nat (b - (a + 1)))) by lia.
  cbn [seq map]. f_equal; [lia|].
  rewrite <- seq_shift, map_map. apply map_ext. intros k. lia.
Qed.

Lemma range_nil (a b : Z) : b <= a -> range a b = [].
Proof.
  intros H. unfold range. replace (Z.to_nat (b - a)) with O by lia. reflexivity.
Qed.

(** One trained fold: the trainer is created for fold [fold + 1] with the
    resume flag as it stands, and the flag is cleared afterwards. *)
Lemma fold_body_Ok (fold : Z) (tr va : timestamps) (w : world C) u w' :
  (modify_config (Config.set_fold (Some (fold + 1))) ;;
   modify_config (Config.set_split tr va) ;;
   trainer <- Trainer_init ;;
   train trainer ;;
   modify_config (Config.set_resume_training false)) w = Ok u w' ->
  exists evs first,
    trace w' = trace w ++ evs /\
    created evs = [(Some (fold + 1), Config.resume_training (config w), first)] /\
    (Config.resume_training (config w) = false -> first = 1) /\
    Config.resume_training (config w') = false.
Proof.
  intros H.
  inv_bind H u1 w1 H1. unfold modify_config in H1. inversion H1; subst u1 w1; clear H1.
  inv_bind H u2 w2 H2. unfold modify_config in H2. inversion H2; subst u2 w2; clear H2.
  inv_bind H t w3 H3. apply Trainer_init_Ok in H3. cbv zeta in H3.
  cbn [config trace Config.set_fold Config.set_split Config.fold
       Config.resume_training] in H3.
  destruct H3 as [_ [_ [_ [_ [_ [_ [_ [Hc3 [_ [Hfresh Hres]]]]]]]]]].
  inv_bind H t4 w4 H4.
  pose proof (train_respects t w3) as X. rewrite H4 in X. cbn [final] in X.
  destruct X as [Hc4 [e4 [Ht4 Hf4]]].
  unfold modify_config in H. inversion H; subst u w'; clear H.
  cbn [config trace Config.set_resume_training Config.resume_training].
  destruct (Config.resume_training (config w)) eqn:R.
  - destruct (Hres eq_refl) as [snap [_ [_ [_ [_ [_ [_ [_ [_ [_ Ht3]]]]]]]]]].
    eexists. exists (snap_epoch snap + 1).
    split; [rewrite Ht4, Ht3, <- app_assoc; reflexivity|].
    split; [|split; [discriminate | reflexivity]].
    rewrite created_app, (created_training _ Hf4). reflexivity.
  - destruct (Hfresh eq_refl) as [_ [_ [_ Ht3]]].
    eexists. exists 1.
    split; [rewrite Ht4, Ht3, <- app_assoc; reflexivity|].
    split; [|split; reflexivity].
    rewrite created_app, (created_training _ Hf4). reflexivity.
Qed.

(** Folds before the first one to train are passed over without a call. *)
Lemma fold_loop_skip (start : Z) (skipped : list (timestamps * timestamps)) :
  forall (fold : Z) rest (w : world C),
  fold + Z.of_nat (length skipped) <= start ->
  fold_loop start fold (skipped ++ rest) w
  = fold_loop start (fold + Z.of_nat (length skipped)) rest w.
Proof.
  induction skipped as [|[tr va] skipped IH]; intros fold rest w H.
  - cbn [app length Z.of_nat]. rewrite Z.add_0_r. reflexivity.
  - cbn [app fold_loop]. cbn [length] in H.
    assert (E : (fold <? start) = true) by (apply Z.ltb_lt; lia).
    rewrite E. unfold bind at 1. cbn [ret].
    rewrite IH by lia. f_equal. cbn [length]. lia.
Qed.

(** From the first fold to train on, every fold is trained; all but the
    first start afresh at epoch 1. *)
Lemma fold_loop_trains (start : Z) (splits : list (timestamps * timestamps)) :
  forall (fold : Z) (w : world C) u w',
  start <= fold ->
  fold_loop start fold splits w = Ok u w' ->
  exists evs,
    trace w' = trace w ++ evs /\
    match splits with
    | [] => created evs = [] /\ config w' = config w
    | _ :: rest =>
        exists first,
          created evs
          = (Some (fold + 1), Config.resume_training (config w), first)
            :: map (fun k => (Some k, false, 1))
                 (range (fold + 2) (fold + 2 + Z.of_nat (length rest))) /\
          (Config.resume_training (config w) = false -> first = 1) /\
          Config.resume_training (config w') = false
    end.
Proof.
  induction splits as [|[tr va] rest IH]; intros fold w u w' Hle H.
  - cbn [fold_loop] in H. apply ret_Ok in H. destruct H as [_ ->].
    exists []. rewrite app_nil_r. auto.
  - cbn [fold_loop] in H.
    assert (E : (fold <? start) = false) by (apply Z.ltb_ge; lia).
    rewrite E in H. inv_bind H u1 w1 H1.
    apply fold_body_Ok in H1. destruct H1 as [e1 [first [Ht1 [Hc1 [Hf1 Hr1]]]]].
    apply IH in H; [|lia]. destruct H as [e2 [Ht2 Hrest]].
    exists (e1 ++ e2). split; [rewrite Ht2, Ht1, app_assoc; reflexivity|].
    exists first. rewrite created_app, Hc1. cbn [app]. destruct rest as [|s rest'].
    + destruct Hrest as [Hc2 Hcfg]. rewrite Hc2, Hcfg. cbn [length Z.of_nat].
      rewrite range_nil by lia. auto.
    + destruct Hrest as [first' [Hc2 [Hf2 Hr2]]].
      rewrite Hc2, Hr1, (Hf2 Hr1).
      rewrite (range_cons (fold + 2)) by (cbn [length]; lia).
      cbn [map]. split; [|auto].
      replace (fold + 1 + 1) with (fold + 2) by lia.
      replace (fold + 1 + 2) with (fold + 2 + 1) by lia.
      replace (fold + 2 + 1 + Z.of_nat (length rest'))
        with (fold + 2 + Z.of_nat (length (s :: rest'))) by (cbn [length]; lia).
      reflexivity.
Qed.

(** C7 (k-fold sequencing on resumption).  Let cross-validation be enabled
    over [K] folds and resumption be requested from fold [F], with
    [1 <= F <= K].  When the driver returns, the trainers it has created
    are, in order, one for each of the folds [F], [F + 1], ..., [K] and none
    for an earlier fold; the trainer of fold [F] is created with the resume
    flag set, every later one with the flag cleared and epoch 1 as its
    first epoch, and the flag is left cleared. *)
Theorem k_fold_resume (w : world C) (F : Z) u w' :
  Config.k_fold (config w) = true ->
  Config.resume_training (config w) = true ->
  Config.resume_from_fold (config w) = F ->
  1 <= F <= Z.of_nat (length (Config.k_fold_splits (config w))) ->
  main w = Ok u w' ->
  exists evs first,
    trace w' = trace w ++ evs /\
    created evs
    = (Some F, true, first)
      :: map (fun k => (Some k, false, 1))
           (range (F + 1) (Z.of_nat (length (Config.k_fold_splits (config w))) + 1)) /\
    Config.resume_training (config w') = false.
Proof.
  intros Hk Hres HF Hrange H. unfold main in H.
  inv_bind H cfg w1 H1. invert_atom H1. rewrite Hk, Hres, HF in H.
  remember (Config.k_fold_splits (config w)) as splits eqn:Es.
  rewrite <- (firstn_skipn (Z.to_nat (F - 1)) splits) in H.
  rewrite fold_loop_skip in H by (rewrite length_firstn; lia).
  assert (Hlen : Z.of_nat (length (firstn (Z.to_nat (F - 1)) splits)) = F - 1)
    by (rewrite length_firstn; lia).
  rewrite Hlen in H.
  apply fold_loop_trains in H; [|lia]. destruct H as [evs [Ht Hc]].
  destruct (skipn (Z.to_nat (F - 1)) splits) as [|s rest] eqn:Esk.
  - exfalso. apply (f_equal (@length _)) in Esk. rewrite length_skipn in Esk.
    cbn [length] in Esk. lia.
  - destruct Hc as [first [Hc [_ Hr]]]. exists evs, first.
    split; [exact Ht|]. split; [|exact Hr].
    rewrite Hc, Hres. apply (f_equal (@length _)) in Esk.
    rewrite length_skipn in Esk. cbn [length] in Esk.
    replace (0 + (F - 1) + 1) with F by lia.
    replace (0 + (F - 1) + 2) with (F + 1) by lia.
    replace (F + 1 + Z.of_nat (length rest)) with (Z.of_nat (length splits) + 1) by lia.
    reflexivity.
Qed.

End Properties.

(** * The properties on concrete runs *)

(** [Trainer(config)] on the small instance builds [toy_trainer]. *)
Example toy_trainer_init :
  value (Trainer_init (fresh_world (toy_config "SPL_sum" 2 false) []))
  = inr (toy_trainer two_batches "SPL_sum").
Proof. reflexivity. Qed.

(** Three epochs with the validation errors 3, 5 and 2. *)
Lemma best_validation_error_tracked_witness :
  tracks (min_val_error (toy_trainer two_batches "MSE")) [] /\
  exists evs,
    trace (final (train (toy_trainer two_batches "MSE")
                    (fresh_world (toy_config "MSE" 3 false) []))) = evs /\
    best_marked [] evs.
Proof.
  split; [reflexivity|].
  destruct (best_validation_error_tracked (toy_trainer two_batches "MSE")
              (fresh_world (toy_config "MSE" 3 false) []) [] eq_refl)
    as [evs [Ht [Hb _]]].
  exists evs. split; [exact Ht | exact Hb].
Defined.

Example best_validation_error_run :
  saves (trace (final (train (toy_trainer two_batches "MSE")
                         (fresh_world (toy_config "MSE" 3 false) []))))
  = [(true, Some 3%Q); (false, Some 3%Q); (true, Some 2%Q)].
Proof. vm_compute. reflexivity. Qed.

(** The batch of the specification: three windows and the window indices
    0, 1, 2, 0, 1, 2. *)
Lemma sliding_window_filtering_witness :
  match train_batches (toy_trainer three_windows "MSE") no_accum 0 [six_samples]
          (fresh_world (toy_config "MSE" 1 true) []) with
  | Ok (_, acc, _) _ =>
      exists ps,
        losses acc
        = batch_losses (criterion (toy_trainer three_windows "MSE")) [six_samples] ps /\
        entries (epoch_ys acc)
        = last_window_entries 3 (fun b _ => y b) [six_samples] ps
  | Raise _ _ => False
  end.
Proof.
  assert (K : is_ok (train_batches (toy_trainer three_windows "MSE") no_accum 0
                       [six_samples] (fresh_world (toy_config "MSE" 1 true) []))
              = true) by (vm_compute; reflexivity).
  destruct (train_batches (toy_trainer three_windows "MSE") no_accum 0 [six_samples]
              (fresh_world (toy_config "MSE" 1 true) []))
    as [[[t' acc] k] w' | e w'] eqn:E; [|discriminate K].
  destruct (sliding_window_filtering _ _ _ _ _ _ _ E) as [ps [_ [_ [Hl [Hs _]]]]].
  exists ps. split; [exact Hl | exact (proj1 (proj2 (Hs eq_refl)))].
Defined.

(** Of the six samples, those at positions 2 and 5 are appended; the loss
    is the one of all six (1 + 2 + 3 + 4 + 5 + 6). *)
Example sliding_window_run :
  match train_batches (toy_trainer three_windows "MSE") no_accum 0 [six_samples]
          (fresh_world (toy_config "MSE" 1 true) []) with
  | Ok (_, acc, _) _ =>
      epoch_ys acc = [[Arr (repeat (Num 12) 28); Arr (repeat (Num 15) 28)]] /\
      epoch_scales acc = [[Num 3; Num 6]] /\
      losses acc = [21%Q]
  | Raise _ _ => False
  end.
Proof. vm_compute. repeat split. Qed.

(** One epoch over two batches with the losses 4 and 6 and two windows. *)
Lemma reported_training_loss_witness :
  aggregates (toy_config "SPL_sum" 1 false) (toy_trainer two_batches "SPL_sum") /\
  match train_epoch (toy_trainer two_batches "SPL_sum") 1
          (fresh_world (toy_config "SPL_sum" 1 false) []) with
  | Ok (t', _) w' => aggregates (config w') t'
  | Raise _ _ => False
  end.
Proof.
  assert (A : aggregates (toy_config "SPL_sum" 1 false)
                (toy_trainer two_batches "SPL_sum")) by (split; reflexivity).
  split; [exact A|].
  assert (K : is_ok (train_epoch (toy_trainer two_batches "SPL_sum") 1
                       (fresh_world (toy_config "SPL_sum" 1 false) [])) = true)
    by (vm_compute; reflexivity).
  destruct (train_epoch (toy_trainer two_batches "SPL_sum") 1
              (fresh_world (toy_config "SPL_sum" 1 false) []))
    as [[t' stop] w' | e w'] eqn:E; [|discriminate K].
  exact (proj1 (proj1 (proj2 reported_training_loss)
                  (toy_trainer two_batches "SPL_sum") 1
                  (fresh_world (toy_config "SPL_sum" 1 false) []) t' stop w' A E)).
Defined.

(** The training loss logged for the losses 4 and 6: 5 for the sum-style
    loss over two windows, and 5 for the mean. *)
Example training_loss_run :
  let logged (loss : string) :=
    match trace (final (train_epoch (toy_trainer two_batches loss) 1
                          (fresh_world (toy_config loss 1 false) []))) with
    | evs => flat_map (fun ev => match ev with
                                 | AddScalar tag v _ =>
                                     if String.eqb tag (loss ++ "/train") then [Qred v] else []
                                 | _ => []
                                 end) evs
    end in
  logged "SPL_sum" = [5%Q] /\ logged "MSE" = [5%Q].
Proof. vm_compute. split; reflexivity. Qed.

(** A trainer with nine bad epochs counted sees one more error without
    improvement and stops, with epochs left to run. *)
Lemma early_stop_halts_witness :
  match train_epoch (nine_bad_epochs two_batches) 2
          (fresh_world (toy_config "MSE" 3 false) []) with
  | Ok (t2, true) w2 =>
      train (nine_bad_epochs two_batches) (fresh_world (toy_config "MSE" 3 false) [])
      = Ok t2 (after w2 [WriterClose])
  | _ => False
  end.
Proof.
  assert (K : stops (train_epoch (nine_bad_epochs two_batches) 2
                       (fresh_world (toy_config "MSE" 3 false) [])) = true)
    by (vm_compute; reflexivity).
  destruct (train_epoch (nine_bad_epochs two_batches) 2
              (fresh_world (toy_config "MSE" 3 false) []))
    as [[t2 [|]] w2 | e w2] eqn:E; try discriminate K.
  exact (proj2 (early_stop_halts (nine_bad_epochs two_batches)
                  (fresh_world (toy_config "MSE" 3 false) []) [] [3] 2
                  _ _ _ _ (runs_on_nil _ _) E) eq_refl).
Defined.

(** A validation pass of the small instance over its one validation batch. *)
Lemma validation_pass_witness :
  match _get_val_loss_and_err (toy_trainer two_batches "MSE") 1
          (fresh_world (toy_config "MSE" 1 false) []) with
  | Ok (t', _) w' =>
      model t' = model (toy_trainer two_batches "MSE") /\
      trace w' = [ModelEval; Forward EvalMode]
  | Raise _ _ => False
  end.
Proof.
  assert (K : is_ok (_get_val_loss_and_err (toy_trainer two_batches "MSE") 1
                       (fresh_world (toy_config "MSE" 1 false) [])) = true)
    by (vm_compute; reflexivity).
  destruct (_get_val_loss_and_err (toy_trainer two_batches "MSE") 1
              (fresh_world (toy_config "MSE" 1 false) []))
    as [[t' [[vl ve] ve2]] w' | e w'] eqn:E; [|discriminate K].
  destruct (validation_pass _ _ _ _ _ _ _ _ E) as [[Hm _] [[_ [_ [_ Ht]]] _]].
  split; [exact Hm | exact Ht].
Defined.

(** Three folds, resumption from fold 2, which was checkpointed at
    epoch 1: fold 1 is skipped, fold 2 resumes at epoch 2 and fold 3 starts
    at epoch 1. *)
Lemma k_fold_resume_witness :
  match main (fold_2_saved two_batches) with
  | Ok _ w' =>
      exists evs first,
        trace w' = trace (fold_2_saved two_batches) ++ evs /\
        created evs = [(Some 2, true, first); (Some 3, false, 1)]
  | Raise _ _ => False
  end.
Proof.
  assert (K : is_ok (main (fold_2_saved two_batches)) = true)
    by (vm_compute; reflexivity).
  destruct (main (fold_2_saved two_batches)) as [u w' | e w'] eqn:E;
    [|discriminate K].
  destruct (k_fold_resume (fold_2_saved two_batches) 2 u w'
              eq_refl eq_refl eq_refl ltac:(cbn; lia) E)
    as [evs [first [Ht [Hc _]]]].
  exists evs, first. split; [exact Ht | exact Hc].
Defined.

Example three_folds_run :
  created (trace (final (main (fold_2_saved two_batches))))
  = [(Some 2, true, 2); (Some 3, false, 1)].
Proof. vm_compute. reflexivity. Qed.

(** A checkpoint saved at epoch 7, then a resumed construction. *)
Lemma resume_restores_witness :
  match Trainer_init
          (final (save (C := toy two_batches) None true (Some 3%Q) 4 7 11 12 13
                    (fresh_world (Config.set_resume_training true
                                    (toy_config "MSE" 9 false)) []))) with
  | Ok t _ =>
      model t = 11 /\ start_epoch t = 8 /\
      best (early_stopping t) = Some 3%Q /\ num_bad_epochs (early_stopping t) = 4
  | Raise _ _ => False
  end.
Proof.
  assert (K : is_ok (Trainer_init
                       (final (save (C := toy two_batches) None true (Some 3%Q)
                                 4 7 11 12 13
                                 (fresh_world (Config.set_resume_training true
                                                 (toy_config "MSE" 9 false)) []))))
              = true) by (vm_compute; reflexivity).
  destruct (Trainer_init
              (final (save (C := toy two_batches) None true (Some 3%Q) 4 7 11 12 13
                        (fresh_world (Config.set_resume_training true
                                        (toy_config "MSE" 9 false)) []))))
    as [t w' | e w'] eqn:E; [|discriminate K].
  destruct (resume_restores (C := toy two_batches)
              (fresh_world (Config.set_resume_training true
                              (toy_config "MSE" 9 false)) [])
              true (Some 3%Q) 4 7 11 12 13 t w' eq_refl E)
    as [_ [Hm [_ [_ [Hs [_ [Hb Hn]]]]]]].
  auto.
Defined.

(** ** Cleanup of the logs with a fold *)

(** C9 (log cleanup; the code departs from the claim when a fold is
    active).  Without a fold, the construction of a trainer that is not
    resumed removes a directory found among the logs and returns, leaving
    [./logs] empty.  With fold 1 active and the same entries in
    [./logs/fold_1], the construction raises [IsADirectoryError]: the file
    is removed, the directory is left, and no trainer is created. *)
Theorem fold_log_cleanup_raises :
  (is_ok (Trainer_init (C := toy two_batches)
            (fresh_world (toy_config "MSE" 2 false) old_logs)) = true /\
   logs (final (Trainer_init (C := toy two_batches)
                  (fresh_world (toy_config "MSE" 2 false) old_logs))) = []) /\
  (value (Trainer_init (C := toy two_batches)
            (fresh_world (Config.set_fold (Some 1) (toy_config "MSE" 2 false))
               [("fold_1", Dir old_logs)]))
   = inl IsADirectoryError /\
   logs (final (Trainer_init (C := toy two_batches)
                  (fresh_world (Config.set_fold (Some 1) (toy_config "MSE" 2 false))
                     [("fold_1", Dir old_logs)])))
   = [("fold_1", Dir [("old_run", Dir [("events.out.tfevents", File)])])] /\
   created (trace (final (Trainer_init (C := toy two_batches)
                            (fresh_world (Config.set_fold (Some 1)
                                            (toy_config "MSE" 2 false))
                               [("fold_1", Dir old_logs)])))) = []).
Proof. vm_compute. repeat split. Qed.

(** ** Steps of the scalar log *)

(** C10 (steps of the scalar log; the code departs from the claim).  With
    a training stream of one batch, the index of the last batch is 0 and the
    scalars of every epoch are logged under step 0: the steps of
    successive epochs collide.  With four batches in epoch 1 and two in
    epoch 2, the steps are 3 and then 2: they decrease. *)
Theorem scalar_steps_not_increasing :
  scalar_steps (trace (final (train (toy_trainer one_batch "MSE")
                                (fresh_world (toy_config "MSE" 2 false) []))))
  = repeat 0 6 ++ repeat 0 6 /\
  scalar_steps (trace (final (train (toy_trainer shrinking "MSE")
                                (fresh_world (toy_config "MSE" 2 false) []))))
  = repeat 3 6 ++ repeat 2 6.
Proof. vm_compute. split; reflexivity. Qed.
